(** * ProCoil Enterprise: the handlers of [server.js]

    A shallow embedding of [POST /api/optimize/coil] with its helpers
    [selectCoilProduct] and [getColorCode], of [GET /api/test/optimize], of
    [loadSecrets] and [authenticate], and of
    [GET /api/inventory/metal-roofing], together with the parts of the
    JavaScript runtime they rest on:

    - numbers are IEEE 754 binary64 values, here the kernel's primitive
      [float] with its round-to-nearest-even operations; [Math.floor],
      [Math.ceil], [Number.prototype.toFixed] and [Number::toString] are
      written out from ECMA-262 on the exact value of a double;
    - strings are sequences of code units below 256 (Rocq's [string]), on
      which [String.prototype.toLowerCase] is the Latin-1 case mapping;
    - an object used as a map is the list of its own properties in insertion
      order; [Object.keys] lists array-index keys first, in ascending order,
      and a lookup falls back on the properties of [Object.prototype];
    - what a handler awaits (Secret Manager, Paradigm, Firestore) is given
      to it as the outcome of the call and the time at which it goes on.

    The optimisation is written once over an interface of number
    operations ([Number]), and read at two instances: [Float64_number],
    which is what the server runs, and [Exact.number], the same text over
    the rationals. *)

From Stdlib Require Import ZArith QArith Qround Qabs Floats Uint63.
From Stdlib Require Import String Ascii List Permutation Sorted Bool Lia.
Import ListNotations.

Set Warnings "-inexact-float".

Local Open Scope string_scope.

(** ** Decimal digits *)

Module Digits.

Definition digit (d : Z) : ascii := ascii_of_N (48 + Z.to_N d).

(** The decimal digits of a non-negative integer, most significant first;
    [fuel] bounds the number of digits. *)
Fixpoint of_Z_aux (fuel : nat) (n : Z) (acc : string) : string :=
  match fuel with
  | O => acc
  | S fuel' =>
      let acc' := String (digit (n mod 10)) acc in
      if (n <? 10)%Z then acc' else of_Z_aux fuel' (n / 10) acc'
  end.

Definition of_Z (n : Z) : string :=
  of_Z_aux (S (Z.to_nat (Z.log2 n))) n "".

Fixpoint zeros (k : nat) : string :=
  match k with
  | O => ""
  | S k' => String "0" (zeros k')
  end.

Fixpoint take (k : nat) (s : string) : string :=
  match k, s with
  | S k', String c s' => String c (take k' s')
  | _, _ => ""
  end.

Fixpoint drop (k : nat) (s : string) : string :=
  match k, s with
  | S k', String _ s' => drop k' s'
  | _, _ => s
  end.

End Digits.

(** ** JavaScript numbers: IEEE 754 binary64 *)

Module Float64.

(** A non-negative integer below 2^53 as a double (exact). *)
Definition of_nonneg (z : Z) : float := PrimFloat.of_uint63 (Uint63.of_Z z).

Definition of_int (z : Z) : float :=
  if (z <? 0)%Z then PrimFloat.opp (of_nonneg (- z)) else of_nonneg z.

(** A decimal literal of the source: the double nearest to [q].  The
    quotient of two exactly represented integers is correctly rounded. *)
Definition lit (q : Q) : float :=
  PrimFloat.div (of_int (Qnum q)) (of_nonneg (Zpos (Qden q))).

(** [x >= y] and [x === y] on numbers; both are false on NaN. *)
Definition geb (x y : float) : bool := PrimFloat.leb y x.
Definition strict_eq (x y : float) : bool := PrimFloat.eqb x y.

(** [Math.floor]: NaN, the zeros and the infinities are returned as they
    are, and so is a double whose exponent is non-negative.  Otherwise
    the value is [m / 2^(-e)] up to sign, and its integer part is below 2^53. *)
Definition Math_floor (x : float) : float :=
  match Prim2SF x with
  | S754_finite s m e =>
      if (0 <=? e)%Z then x
      else
        let q := Z.shiftr (Zpos m) (- e) in
        let exact := (Z.shiftl q (- e) =? Zpos m)%Z in
        if s then PrimFloat.opp (of_nonneg (if exact then q else q + 1))
        else of_nonneg q
  | _ => x
  end.

(** [Math.ceil]; a value in (-1, 0) gives -0. *)
Definition Math_ceil (x : float) : float :=
  match Prim2SF x with
  | S754_finite s m e =>
      if (0 <=? e)%Z then x
      else
        let q := Z.shiftr (Zpos m) (- e) in
        let exact := (Z.shiftl q (- e) =? Zpos m)%Z in
        if s then PrimFloat.opp (of_nonneg q)
        else of_nonneg (if exact then q else q + 1)
  | _ => x
  end.

(** *** Rendering numbers

    A finite non-zero double is [m * 2^e] up to sign, with [(m, e)] as
    [Prim2SF] gives them. *)

Definition cdiv (a b : Z) : Z := (- ((- a) / b))%Z.

(** The integer nearest to [a / b], the larger one on a tie. *)
Definition round_half_up (a b : Z) : Z := ((2 * a + b) / (2 * b))%Z.

(** The integer nearest to [a / b], the even one on a tie. *)
Definition round_half_even (a b : Z) : Z :=
  let c := round_half_up a b in
  if ((2 * a + b) mod (2 * b) =? 0)%Z && Z.odd c then (c - 1)%Z else c.

(** The reals that round to [m * 2^e] lie between the midpoints to its
    neighbours, which are included when [m] is even.  In units of
    [2^(e-2)] the double is [4m] and the midpoints are [4m - 2] (or
    [4m - 1] when the neighbour below is in the binade below) and [4m + 2]. *)
Definition rounding_interval (m : positive) (e : Z) : Z * Z * bool :=
  let x := (4 * Zpos m)%Z in
  let lo := if (Zpos m =? 2 ^ 52)%Z && (-1074 <? e)%Z then (x - 1)%Z else (x - 2)%Z in
  (lo, (x + 2)%Z, Z.even (Zpos m)).

(** An integer [s] with [s * 10^j] rounding to [m * 2^e], the nearest one
    to the double (the even one on a tie) when there are several. *)
Definition shortest_at (m : positive) (e j : Z) : option Z :=
  let '(lo, hi, closed) := rounding_interval m e in
  let p := (2 ^ Z.max (e - 2) 0 * 10 ^ Z.max (- j) 0)%Z in
  let r := (10 ^ Z.max j 0 * 2 ^ Z.max (- (e - 2)) 0)%Z in
  let s_lo := if closed then cdiv (lo * p) r else ((lo * p) / r + 1)%Z in
  let s_hi := if closed then ((hi * p) / r)%Z else (cdiv (hi * p) r - 1)%Z in
  if (s_lo <=? s_hi)%Z
  then Some (Z.max s_lo (Z.min s_hi (round_half_even (4 * Zpos m * p) r)))
  else None.

(** The largest decimal exponent [j] at which there is such an [s]: its
    digits are the fewest that identify the double.  The search goes down
    from a [j] with [10^j] above the interval (10^j > 2^(log2 m + e + 2),
    as 0.30103 > log10 2), and 17 digits always identify a double. *)
Fixpoint shortest (fuel : nat) (m : positive) (e j : Z) : Z * Z :=
  match shortest_at m e j with
  | Some s => (s, j)
  | None =>
      match fuel with
      | O => (0%Z, j)
      | S fuel' => shortest fuel' m e (j - 1)
      end
  end.

(** [Number::toString] of the positive double [m * 2^e] (ECMA-262, 6.1.6.1.20,
    steps 5 to 10, with the choice of [s] its note recommends). *)
Definition to_string_pos (m : positive) (e : Z) : string :=
  let '(s, j) := shortest 40 m e (((Z.log2 (Zpos m) + e + 2) * 30103) / 100000 + 2) in
  let ds := Digits.of_Z s in
  let k := Z.of_nat (String.length ds) in
  let n := (k + j)%Z in
  if (k <=? n)%Z && (n <=? 21)%Z then ds ++ Digits.zeros (Z.to_nat (n - k))
  else if (0 <? n)%Z && (n <=? 21)%Z
  then Digits.take (Z.to_nat n) ds ++ "." ++ Digits.drop (Z.to_nat n) ds
  else if (-6 <? n)%Z && (n <=? 0)%Z then "0." ++ Digits.zeros (Z.to_nat (- n)) ++ ds
  else
    let ex := (if (n - 1 <? 0)%Z then "-" else "+") ++ Digits.of_Z (Z.abs (n - 1)) in
    match ds with
    | "" => ""
    | String d "" => String d ("e" ++ ex)
    | String d rest => String d ("." ++ rest ++ "e" ++ ex)
    end.

Definition Number_toString (x : float) : string :=
  match Prim2SF x with
  | S754_nan => "NaN"
  | S754_zero _ => "0"
  | S754_infinity s => if s then "-Infinity" else "Infinity"
  | S754_finite s m e => (if s then "-" else "") ++ to_string_pos m e
  end.

(** The digits of [n / 10^f] with [f] digits after the point. *)
Definition fixed_string (f : nat) (n : Z) : string :=
  let m := Digits.of_Z n in
  match f with
  | O => m
  | _ =>
      let k := String.length m in
      let m' := if (k <=? f)%nat then Digits.zeros (f + 1 - k) ++ m else m in
      let a := (String.length m' - f)%nat in
      Digits.take a m' ++ "." ++ Digits.drop a m'
  end.

(** [x.toFixed(f)] for [0 <= f <= 100] (ECMA-262, 21.1.3.3): the sign is
    that of [x] even when the digits are all zero, -0 prints as 0, and a
    magnitude of 10^21 or more falls back on [Number::toString]. *)
Definition toFixed (f : nat) (x : float) : string :=
  match Prim2SF x with
  | S754_nan => "NaN"
  | S754_infinity s => if s then "-Infinity" else "Infinity"
  | S754_zero _ => fixed_string f 0
  | S754_finite s m e =>
      let sign := if s then "-" else "" in
      if PrimFloat.leb 1e21 (PrimFloat.abs x) then sign ++ to_string_pos m e
      else
        let scaled := (Zpos m * 10 ^ Z.of_nat f)%Z in
        let n := if (0 <=? e)%Z then (scaled * 2 ^ e)%Z
                 else round_half_up scaled (2 ^ (- e)) in
        sign ++ fixed_string f n
  end.

End Float64.

(** ** JavaScript strings and objects *)

Module JSString.

(** [toLowerCase] on a code unit below 256: A-Z, and U+00C0..U+00DE
    without the multiplication sign U+00D7, move up by 32. *)
Definition is_upper (c : ascii) : bool :=
  let n := N_of_ascii c in
  ((65 <=? n) && (n <=? 90) || (192 <=? n) && (n <=? 222) && negb (n =? 215))%N.

Definition toLower (c : ascii) : ascii :=
  if is_upper c then ascii_of_N (N_of_ascii c + 32) else c.

Fixpoint toLowerCase (s : string) : string :=
  match s with
  | "" => ""
  | String c s' => String (toLower c) (toLowerCase s')
  end.

End JSString.

Module JSObject.

(** The own properties of an object, in the order they were created. *)
Definition t (V : Type) : Type := list (string * V).

Fixpoint get_own {V} (k : string) (o : t V) : option V :=
  match o with
  | [] => None
  | (k', v) :: o' => if String.eqb k k' then Some v else get_own k o'
  end.

(** The properties every object inherits from [Object.prototype]; the
    value of each is a function, or the prototype itself for [__proto__]. *)
Definition Object_prototype : list string :=
  [ "constructor"; "__defineGetter__"; "__defineSetter__"; "hasOwnProperty";
    "__lookupGetter__"; "__lookupSetter__"; "isPrototypeOf";
    "propertyIsEnumerable"; "toString"; "valueOf"; "__proto__";
    "toLocaleString" ].

Definition inherited (k : string) : bool :=
  existsb (String.eqb k) Object_prototype.

(** [o[k]]: an own property, else an inherited one, else [undefined]. *)
Inductive lookup (V : Type) : Type :=
| Own (v : V)
| Inherited
| Undefined.
Arguments Own {V} v.
Arguments Inherited {V}.
Arguments Undefined {V}.

Definition get {V} (k : string) (o : t V) : lookup V :=
  match get_own k o with
  | Some v => Own v
  | None => if inherited k then Inherited else Undefined
  end.

(** [o[k] = v] for a key that is not inherited: an existing property keeps
    its place, a new one goes last. *)
Fixpoint set {V} (k : string) (v : V) (o : t V) : t V :=
  match o with
  | [] => [(k, v)]
  | (k', v') :: o' =>
      if String.eqb k k' then (k, v) :: o' else (k', v') :: set k v o'
  end.

(** An array index is a canonical decimal numeral below 2^32 - 1. *)
Definition digit_val (c : ascii) : option N :=
  let n := N_of_ascii c in
  if ((48 <=? n) && (n <=? 57))%N then Some (n - 48)%N else None.

Fixpoint parse_digits (s : string) (acc : N) : option N :=
  match s with
  | "" => Some acc
  | String c s' =>
      match digit_val c with
      | Some d => parse_digits s' (acc * 10 + d)%N
      | None => None
      end
  end.

Definition array_index (k : string) : option N :=
  match k with
  | "" => None
  | String "0" "" => Some 0%N
  | String "0" _ => None
  | _ =>
      match parse_digits k 0 with
      | Some n => if (n <? 4294967295)%N then Some n else None
      | None => None
      end
  end.

Fixpoint insert_index {V} (i : N) (p : string * V) (l : list (N * (string * V)))
  : list (N * (string * V)) :=
  match l with
  | [] => [(i, p)]
  | (j, q) :: l' =>
      if (i <=? j)%N then (i, p) :: l else (j, q) :: insert_index i p l'
  end.

Definition indexed {V} (o : t V) : list (N * (string * V)) :=
  fold_right
    (fun p acc =>
       match array_index (fst p) with
       | Some i => insert_index i p acc
       | None => acc
       end) [] o.

Definition named {V} (o : t V) : t V :=
  filter (fun p => match array_index (fst p) with Some _ => false | None => true end) o.

(** [Object.entries(o)]: array indices in ascending order, then the other
    keys in creation order.  [Object.keys(o)] are their keys. *)
Definition entries {V} (o : t V) : list (string * V) :=
  map snd (indexed o) ++ named o.

Definition keys {V} (o : t V) : list string := map fst (entries o).

End JSObject.

(** ** The numbers of the handler *)

Class Number (num : Type) : Type := {
  lit : Q -> num;
  add : num -> num -> num;
  sub : num -> num -> num;
  mul : num -> num -> num;
  div : num -> num -> num;
  geb : num -> num -> bool;
  strict_eq : num -> num -> bool;
  Math_floor : num -> num;
  Math_ceil : num -> num;
  toFixed : nat -> num -> string
}.

Declare Scope js_scope.
Delimit Scope js_scope with js.
Infix "+" := add : js_scope.
Infix "-" := sub : js_scope.
Infix "*" := mul : js_scope.
Infix "/" := div : js_scope.
Infix ">=" := geb : js_scope.
Infix "===" := strict_eq (at level 70) : js_scope.

(** What the server runs. *)
#[global] Instance Float64_number : Number float := {
  lit := Float64.lit;
  add := PrimFloat.add;
  sub := PrimFloat.sub;
  mul := PrimFloat.mul;
  div := PrimFloat.div;
  geb := Float64.geb;
  strict_eq := Float64.strict_eq;
  Math_floor := Float64.Math_floor;
  Math_ceil := Float64.Math_ceil;
  toFixed := Float64.toFixed
}.

(** Exact arithmetic: the rationals, where no operation rounds.  A
    division by zero does not arise under the hypotheses this instance is
    used with. *)
Module Exact.

Definition toFixed (f : nat) (q : Q) : string :=
  let n := Float64.round_half_up (Z.abs (Qnum q) * 10 ^ Z.of_nat f) (Zpos (Qden q)) in
  (if (Qnum q <? 0)%Z then "-" else "") ++ Float64.fixed_string f n.

#[global] Instance number : Number Q := {
  lit := fun q => q;
  add := Qplus;
  sub := Qminus;
  mul := Qmult;
  div := Qdiv;
  geb := fun x y => Qle_bool y x;
  strict_eq := Qeq_bool;
  Math_floor := fun q => inject_Z (Qfloor q);
  Math_ceil := fun q => inject_Z (Qceiling q);
  toFixed := toFixed
}.

End Exact.

(** ** Data of the optimisation endpoint *)

(** An element of [req.body.items].  [color] may be absent; the numeric
    fields are JavaScript numbers, NaN standing for a field that is
    absent, which is what every operation of the handler makes of
    [undefined]. *)
Module Item.
Record t {num : Type} : Type := {
  productId : string;
  color : option string;
  quantity : num;
  length : num;
  width : num
}.
Arguments t : clear implicits.
End Item.

(** An element of [patterns]: the object pushed by either branch. *)
Module Pattern.
Inductive t {num : Type} : Type :=
| FullWidth (product : string) (quantity lengthEach totalFeet : num)
| NestedTrim (product : string)
    (quantity width piecesPerRow rowsNeeded lengthEach totalFeet : num)
    (efficiency : string).
Arguments t : clear implicits.

Definition totalFeet {num} (p : t num) : num :=
  match p with
  | FullWidth _ _ _ f => f
  | NestedTrim _ _ _ _ _ _ f _ => f
  end.

Definition type {num} (p : t num) : string :=
  match p with
  | FullWidth _ _ _ _ => "Full Width"
  | NestedTrim _ _ _ _ _ _ _ _ => "Nested Trim"
  end.

Definition piecesPerRow {num} (p : t num) : option num :=
  match p with
  | FullWidth _ _ _ _ => None
  | NestedTrim _ _ _ n _ _ _ _ => Some n
  end.

Definition rowsNeeded {num} (p : t num) : option num :=
  match p with
  | FullWidth _ _ _ _ => None
  | NestedTrim _ _ _ _ r _ _ _ => Some r
  end.
End Pattern.

(** [optimization[color]]. *)
Module Group.
Record t {num : Type} : Type := {
  items : list (Item.t num);
  patterns : list (Pattern.t num);
  baseLinearFeet : num;
  scrapFeet : num;
  totalLinearFeet : num;
  coilsNeeded : num;
  efficiency : string;
  recommendedCoil : option string
}.
Arguments t : clear implicits.
End Group.

(** [summary]; every figure but [totalCoilsNeeded] and [coilWidth] is a
    string made by [toFixed].  [scrapPercent], the configured scrap factor
    as a percentage, is left out. *)
Module Summary.
Record pricing_t : Type := {
  materialCost : string;
  laborCost : string;
  totalCost : string;
  sellPrice : string;
  margin : string;
  marginPercent : string
}.
Record t {num : Type} : Type := {
  totalLinearFeet : string;
  scrapFeet : string;
  totalWithScrap : string;
  totalCoilsNeeded : num;
  coilWidth : num;
  pricing : pricing_t
}.
Arguments t : clear implicits.
End Summary.

Module Config.
Record pricing_t {num : Type} : Type := {
  marginPercent : num;
  laborPerFoot : num
}.
Arguments pricing_t : clear implicits.
Record t {num : Type} : Type := {
  scrapFactor : num;
  coilWidths : list num;
  defaultGauge : num;
  standardRollLength : num;
  pricing : pricing_t num
}.
Arguments t : clear implicits.
End Config.

(** [req.body]: [items] and [coilWidth], either of which may be absent. *)
Module Body.
Record t {num : Type} : Type := {
  items : option (list (Item.t num));
  coilWidth : option num
}.
Arguments t : clear implicits.
End Body.

(** What the handler sends: [res.json] with the status set before it. *)
Inductive Response {num : Type} : Type :=
| Ok200 (optimization : JSObject.t (Group.t num)) (summary : Summary.t num)
| BadRequest400 (error : string)
| ServerError500 (error message : string).
Arguments Response : clear implicits.

Module Categories.
Record t : Type := {
  coils : list string;
  panels : list string;
  trim : list string;
  colors : JSObject.t string
}.
End Categories.

Definition PRODUCT_CATEGORIES : Categories.t := {|
  Categories.coils := ["CO2024"; "CO2026"; "CO2029"; "CO4387524"; "CO4387526"; "CO4387529"];
  Categories.panels := ["A4"; "A6"; "A8"];
  Categories.trim := ["High-Fastener"; "HF Rake"; "Overhead Door Trim"; "Com Rib Rake"];
  Categories.colors :=
    [ ("AG", "Ash Gray"); ("ARW", "Arctic White"); ("AW", "Alamo White");
      ("B", "Brown"); ("BER", "Berry"); ("BK", "Black"); ("BR", "Brick Red");
      ("BS", "Burnished Slate"); ("BUR", "Burgundy"); ("BW", "Bone White");
      ("OB", "Ocean Blue"); ("CH", "Charcoal"); ("EG", "Evergreen");
      ("GB", "Gallery Blue"); ("GAL", "Galvalume") ]
|}.

(** [getColorCode]: the first entry of the colour table whose name is the
    given one once both are in lower case. *)
Fixpoint find_code (table : list (string * string)) (colorName : string) : string :=
  match table with
  | [] => "CUSTOM"
  | (code, name) :: rest =>
      if String.eqb (JSString.toLowerCase name) (JSString.toLowerCase colorName)
      then code
      else find_code rest colorName
  end.

Definition getColorCode (colorName : string) : string :=
  find_code (JSObject.entries (Categories.colors PRODUCT_CATEGORIES)) colorName.

Section Engine.

Context {num : Type} {N : Number num}.
Local Open Scope js_scope.

Definition BUSINESS_CONFIG : Config.t num := {|
  Config.scrapFactor := lit 0.05;
  Config.coilWidths := [lit 20; lit 43.875];
  Config.defaultGauge := lit 29;
  Config.standardRollLength := lit 100;
  Config.pricing := {|
    Config.marginPercent := lit 0.30;
    Config.laborPerFoot := lit 0.50
  |}
|}.

(** [selectCoilProduct] *)
Definition selectCoilProduct (color : string) (width : num) : string :=
  let colorCode := getColorCode color in
  let widthPrefix := if width === lit 20 then "CO20" else "CO43875" in
  let gauge := "29" in
  (widthPrefix ++ gauge ++ colorCode)%string.

(** [item.color || 'UNSPECIFIED'] *)
Definition color_of (item : Item.t num) : string :=
  match Item.color item with
  | Some c => if String.eqb c "" then "UNSPECIFIED" else c
  | None => "UNSPECIFIED"
  end.

(** One turn of [items.forEach]: [None] when [colorGroups[color]] is an
    inherited property, whose value has no [push], so that the call throws
    a TypeError. *)
Definition group_item (colorGroups : JSObject.t (list (Item.t num)))
    (item : Item.t num) : option (JSObject.t (list (Item.t num))) :=
  let color := color_of item in
  match JSObject.get color colorGroups with
  | JSObject.Own l => Some (JSObject.set color (l ++ [item])%list colorGroups)
  | JSObject.Inherited => None
  | JSObject.Undefined => Some (JSObject.set color [item] colorGroups)
  end.

Fixpoint group_items (items : list (Item.t num))
    (colorGroups : JSObject.t (list (Item.t num)))
  : option (JSObject.t (list (Item.t num))) :=
  match items with
  | [] => Some colorGroups
  | item :: rest =>
      match group_item colorGroups item with
      | Some colorGroups' => group_items rest colorGroups'
      | None => None
      end
  end.

(** One turn of [colorItems.forEach], on [linearFeet] and [patterns]. *)
Definition item_step (coilWidth : num) (acc : num * list (Pattern.t num))
    (item : Item.t num) : num * list (Pattern.t num) :=
  let '(linearFeet, patterns) := acc in
  if Item.width item >= coilWidth then
    (linearFeet + Item.quantity item * Item.length item,
     (patterns ++ [Pattern.FullWidth (Item.productId item) (Item.quantity item)
                     (Item.length item) (Item.quantity item * Item.length item)])%list)
  else
    let piecesPerRow := Math_floor (coilWidth / Item.width item) in
    let rowsNeeded := Math_ceil (Item.quantity item / piecesPerRow) in
    let feetNeeded := rowsNeeded * Item.length item in
    (linearFeet + feetNeeded,
     (patterns ++ [Pattern.NestedTrim (Item.productId item) (Item.quantity item)
                     (Item.width item) piecesPerRow rowsNeeded (Item.length item)
                     feetNeeded
                     (toFixed 1 (Item.width item * piecesPerRow / coilWidth * lit 100)
                        ++ "%")%string])%list).

(** The body of [Object.keys(colorGroups).forEach], up to the assignment
    to [optimization[color]].  [recommended] tells the two endpoints
    apart: only [POST /api/optimize/coil] calls [selectCoilProduct]. *)
Definition optimize_color (recommended : bool) (coilWidth : num) (color : string)
    (colorItems : list (Item.t num)) : Group.t num :=
  let '(linearFeet, patterns) := fold_left (item_step coilWidth) colorItems (lit 0, []) in
  let scrapAmount := linearFeet * Config.scrapFactor BUSINESS_CONFIG in
  let totalNeeded := linearFeet + scrapAmount in
  {| Group.items := colorItems;
     Group.patterns := patterns;
     Group.baseLinearFeet := linearFeet;
     Group.scrapFeet := scrapAmount;
     Group.totalLinearFeet := totalNeeded;
     Group.coilsNeeded := Math_ceil (totalNeeded / Config.standardRollLength BUSINESS_CONFIG);
     Group.efficiency := (toFixed 2 (linearFeet / totalNeeded * lit 100) ++ "%")%string;
     Group.recommendedCoil :=
       if recommended then Some (selectCoilProduct color coilWidth) else None |}.

(** The loop over the colours, on [optimization], [totalLinearFeet] and
    [totalWithScrap]. *)
Definition color_step (recommended : bool) (coilWidth : num)
    (acc : JSObject.t (Group.t num) * num * num) (entry : string * list (Item.t num))
  : JSObject.t (Group.t num) * num * num :=
  let '(optimization, totalLinearFeet, totalWithScrap) := acc in
  let g := optimize_color recommended coilWidth (fst entry) (snd entry) in
  (JSObject.set (fst entry) g optimization,
   totalLinearFeet + Group.baseLinearFeet g,
   totalWithScrap + Group.totalLinearFeet g).

(** The pricing block and the summary. *)
Definition summarize (coilWidth totalLinearFeet totalWithScrap : num) : Summary.t num :=
  let materialCost := totalWithScrap * lit 3.85 in
  let laborCost := totalWithScrap * Config.laborPerFoot (Config.pricing BUSINESS_CONFIG) in
  let totalCost := materialCost + laborCost in
  let sellPrice := totalCost * (lit 1 + Config.marginPercent (Config.pricing BUSINESS_CONFIG)) in
  {| Summary.totalLinearFeet := toFixed 2 totalLinearFeet;
     Summary.scrapFeet := toFixed 2 (totalWithScrap - totalLinearFeet);
     Summary.totalWithScrap := toFixed 2 totalWithScrap;
     Summary.totalCoilsNeeded :=
       Math_ceil (totalWithScrap / Config.standardRollLength BUSINESS_CONFIG);
     Summary.coilWidth := coilWidth;
     Summary.pricing := {|
       Summary.materialCost := toFixed 2 materialCost;
       Summary.laborCost := toFixed 2 laborCost;
       Summary.totalCost := toFixed 2 totalCost;
       Summary.sellPrice := toFixed 2 sellPrice;
       Summary.margin := toFixed 2 (sellPrice - totalCost);
       Summary.marginPercent :=
         (toFixed 0 (Config.marginPercent (Config.pricing BUSINESS_CONFIG) * lit 100)
            ++ "%")%string
     |} |}.

(** The statements of the [try] block after the check of [items]. *)
Definition run (recommended : bool) (items : list (Item.t num)) (coilWidth : num)
  : option (JSObject.t (Group.t num) * Summary.t num) :=
  match group_items items [] with
  | None => None
  | Some colorGroups =>
      let '(optimization, totalLinearFeet, totalWithScrap) :=
        fold_left (color_step recommended coilWidth) (JSObject.entries colorGroups)
          ([], lit 0, lit 0) in
      Some (optimization, summarize coilWidth totalLinearFeet totalWithScrap)
  end.

(** [POST /api/optimize/coil]: [coilWidth] defaults to 43.875; a missing
    or empty [items] is answered with 400, an exception with 500 and the
    message of the error (here V8's for the only one that can be thrown). *)
Definition optimize (body : Body.t num) : Response num :=
  let coilWidth := match Body.coilWidth body with Some w => w | None => lit 43.875 end in
  match Body.items body with
  | None | Some [] => BadRequest400 "No items provided"
  | Some items =>
      match run true items coilWidth with
      | Some (optimization, summary) => Ok200 optimization summary
      | None =>
          ServerError500 "Optimization failed" "colorGroups[color].push is not a function"
      end
  end.

End Engine.

(** The filter of [GET /api/inventory/metal-roofing] on the products that
    Paradigm returns, of which it reads [StrCategory] and [StrProductID]. *)
Module Inventory.

Record Product : Type := {
  StrCategory : option string;
  StrProductID : option string
}.

Definition startsWith (s p : string) : bool := String.prefix p s.

Definition is_metal_roofing (item : Product) : bool :=
let category := StrCategory item in
let productId :=
  match StrProductID item with
  | Some id => if String.eqb id "" then "" else id
  | None => ""
  end in
if existsb (fun c => match category with Some c' => String.eqb c' c | None => false end)
     ["Coils"; "Panels"; "Trim"; "Fasteners"; "Flatsheets"]
then true
else if startsWith productId "CO" || startsWith productId "A4"
        || startsWith productId "A6" || startsWith productId "A8"
then true
else false.

End Inventory.

(** ** The server around the handler *)

Module Server.

Record ParadigmConfig : Type := {
  baseURL : string;
  apiKey : option string;
  username : string;
  password : option string
}.

(** The module-level variables that are assigned after start-up. *)
Record State : Type := {
  PARADIGM_CONFIG : option ParadigmConfig;
  authToken : option string;
  tokenExpiry : option Z
}.

Inductive Level : Type := info | warn | error.

(** The lines that [logger] writes, by what they say. *)
Inductive Line : Type :=
| ConfigurationLoaded
| SecretManagerUnavailable
| Authenticated
| AuthenticationFailed
| OptimizationError
| ReturningCachedInventory
| ReturnedProducts (n : nat)
| InventoryFetchError.

(** What a handler can observe and change besides its request: the
    variables above, the clock (milliseconds since the epoch, the same
    throughout a stretch of code without [await]), the lines written to
    the console, and the document [cache/inventory_metal_roofing] of
    Firestore, which only the inventory endpoint writes: its [data] and
    its [timestamp]. *)
Record World : Type := {
  state : State;
  now : Z;
  console : list (Level * Line);
  cache : option (list Inventory.Product * Z)
}.

Definition logger (l : Level) (line : Line) (w : World) : World :=
{| state := state w; now := now w; console := console w ++ [(l, line)];
   cache := cache w |}.

(** The world when the code goes on after an [await]. *)
Definition resumed (t : Z) (w : World) : World :=
{| state := state w; now := t; console := console w; cache := cache w |}.


(** *** Secrets *)

(** The variables of [process.env] that the server reads. *)
Record Env : Type := {
  NODE_ENV : option string;
  GOOGLE_CLOUD_PROJECT : option string;
  PARADIGM_API_URL : option string;
  PARADIGM_API_KEY : option string;
  PARADIGM_USERNAME : option string;
  PARADIGM_PASSWORD : option string
}.

(** [a || b] for a string that may be undefined. *)
Definition or_else (a : option string) (b : string) : string :=
match a with
| Some s => if String.eqb s "" then b else s
| None => b
end.

(** [process.env.NODE_ENV === 'development'] *)
Definition is_development (env : Env) : bool :=
match NODE_ENV env with
| Some v => String.eqb v "development"
| None => false
end.

Definition secret_name (projectId secret : string) : string :=
"projects/" ++ projectId ++ "/secrets/" ++ secret ++ "/versions/latest".

Definition set_config (c : ParadigmConfig) (w : World) : World :=
{| state := {| PARADIGM_CONFIG := Some c;
               authToken := authToken (state w);
               tokenExpiry := tokenExpiry (state w) |};
   now := now w;
   console := console w;
   cache := cache w |}.

(** [loadSecrets].  [accessSecretVersion name] is the text of the secret
    of that name, or [None] when the call or the reading of its payload
    throws; either way the inner [catch] is the only one reached. *)
Definition loadSecrets (env : Env) (accessSecretVersion : string -> option string)
    (w : World) : bool * World :=
let projectId := or_else (GOOGLE_CLOUD_PROJECT env) "procoil-greenfield-prod" in
let fallback :=
  set_config
    {| baseURL := "https://greenfieldapi.para-apps.com";
       apiKey := Some (or_else (PARADIGM_API_KEY env) "nVPsQFBteV&GEd7*8n0%RliVjksag8");
       username := "web_admin";
       password := Some (or_else (PARADIGM_PASSWORD env) "ChangeMe#123!") |}
    (logger warn SecretManagerUnavailable w) in
let w' :=
  if is_development env then
    set_config
      {| baseURL := or_else (PARADIGM_API_URL env) "https://greenfieldapi.para-apps.com";
         apiKey := PARADIGM_API_KEY env;
         username := or_else (PARADIGM_USERNAME env) "web_admin";
         password := PARADIGM_PASSWORD env |} w
  else
      match accessSecretVersion (secret_name projectId "paradigm-api-key") with
      | Some apiKeyResponse =>
          match accessSecretVersion (secret_name projectId "paradigm-password") with
          | Some passwordResponse =>
              set_config
                {| baseURL := "https://greenfieldapi.para-apps.com";
                   apiKey := Some apiKeyResponse;
                   username := "web_admin";
                   password := Some passwordResponse |} w
          | None => fallback
          end
      | None => fallback
      end in
(true, logger info ConfigurationLoaded w').

(** *** Authentication *)

(** The request that [axios.post] sends for a token. *)
Record TokenRequest : Type := {
  url : string;
  userName : string;
  body_password : option string;
  x_api_key : option string
}.

(** What an [await] gives back: the value of the promise, or its
    rejection, and the time at which the code goes on. *)
Inductive Outcome (A : Type) : Type :=
| Resolved (a : A)
| Rejected (message : string).
Arguments Resolved {A} a.
Arguments Rejected {A} message.

(** The result of a call: the value returned or the message of the error
    thrown, the world after it, and the requests it has sent. *)
Definition Call (A R : Type) : Type := (A + string) * World * list R.

(** [authenticate].  A token is a string, and the empty one is falsy. *)
Definition authenticate (post : TokenRequest -> Outcome string * Z) (w : World)
  : Call string TokenRequest :=
let s := state w in
let cached :=
  match authToken s, tokenExpiry s with
  | Some token, Some expiry =>
      if negb (String.eqb token "") && (now w <? expiry)%Z then Some token else None
  | _, _ => None
  end in
match cached with
| Some token => (inl token, w, [])
| None =>
    match PARADIGM_CONFIG s with
    | None =>
        (inr "Failed to authenticate with Paradigm",
         logger error AuthenticationFailed w, [])
    | Some config =>
        let request :=
          {| url := baseURL config ++ "/api/user/Auth/GetToken";
             userName := username config;
             body_password := password config;
             x_api_key := apiKey config |} in
        match post request with
        | (Resolved data, t) =>
            (inl data,
             logger info Authenticated
               {| state := {| PARADIGM_CONFIG := PARADIGM_CONFIG s;
                              authToken := Some data;
                              tokenExpiry := Some (t + 3600000)%Z |};
                  now := t;
                  console := console w;
                  cache := cache w |},
             [request])
        | (Rejected _, t) =>
            (inr "Failed to authenticate with Paradigm",
             logger error AuthenticationFailed (resumed t w), [request])
        end
    end
end.

(** *** The inventory *)

Record InventoryRequest : Type := {
  inventory_url : string;
  authorization : string;
  inventory_x_api_key : option string
}.

Inductive Sent : Type :=
| TokenSent (request : TokenRequest)
| InventorySent (request : InventoryRequest).

Inductive InventoryResponse : Type :=
| InventoryOk200 (products : list Inventory.Product)
| InventoryError500 (error message : string).

(** The [catch] block of the endpoint. *)
Definition inventory_failed (message : string) (w : World) (sent : list Sent)
  : InventoryResponse * World * list Sent :=
(InventoryError500 "Failed to fetch inventory" message,
 logger error InventoryFetchError w, sent).

(** [GET /api/inventory/metal-roofing].  The four [await]s are, in
    order: the reading of the cache document, [authenticate], the request
    to Paradigm and the writing of the cache document; each is given by
    its outcome and the time at which the handler goes on. *)
Definition get_inventory
    (firestore_get : Outcome unit * Z)
    (post : TokenRequest -> Outcome string * Z)
    (get : InventoryRequest -> Outcome (list Inventory.Product) * Z)
    (firestore_set : Outcome unit * Z)
    (w : World) : InventoryResponse * World * list Sent :=
match firestore_get with
| (Rejected message, t0) => inventory_failed message (resumed t0 w) []
| (Resolved _, t0) =>
    let w0 := resumed t0 w in
    let fresh :=
      match cache w0 with
      | Some (data, timestamp) =>
          if (now w0 - 300000 <? timestamp)%Z then Some data else None
      | None => None
      end in
    match fresh with
    | Some data => (InventoryOk200 data, logger info ReturningCachedInventory w0, [])
    | None =>
        match authenticate post w0 with
        | (inr message, w1, requests) =>
            inventory_failed message w1 (map TokenSent requests)
        | (inl token, w1, requests) =>
            match PARADIGM_CONFIG (state w1) with
            | None =>
                inventory_failed "Cannot read properties of null (reading 'baseURL')"
                  w1 (map TokenSent requests)
            | Some config =>
                let request :=
                  {| inventory_url := baseURL config ++ "/api/user/Inventory/1/500";
                     authorization := "Bearer " ++ token;
                     inventory_x_api_key := apiKey config |} in
                let sent := (map TokenSent requests ++ [InventorySent request])%list in
                match get request with
                | (Rejected message, t2) => inventory_failed message (resumed t2 w1) sent
                | (Resolved data, t2) =>
                    let metalProducts := filter Inventory.is_metal_roofing data in
                    match firestore_set with
                    | (Rejected message, t3) =>
                        inventory_failed message (resumed t3 w1) sent
                    | (Resolved _, t3) =>
                        (InventoryOk200 metalProducts,
                         logger info (ReturnedProducts (List.length metalProducts))
                           {| state := state w1;
                              now := t3;
                              console := console w1;
                              cache := Some (metalProducts, t2) |},
                         sent)
                    end
                end
            end
        end
    end
end.

End Server.

(** ** Vocabulary of the statements *)

(** The rational a finite double stands for. *)
Definition exact_value (x : float) : option Q :=
  match Prim2SF x with
  | S754_zero _ => Some 0%Q
  | S754_finite s m e =>
      let v := if (0 <=? e)%Z then inject_Z (Zpos m * 2 ^ e) else Qmake (Zpos m) (2 ^ Z.to_pos (- e)) in
      Some (if s then Qopp v else v)
  | _ => None
  end.

(** The rational a decimal numeral such as ["-12.50"] stands for. *)
Module Decimal.

(** The integer that a string of digits continues. *)
Fixpoint int (s : string) (acc : Z) : option Z :=
match s with
| "" => Some acc
| String c s' =>
    match JSObject.digit_val c with
    | Some d => int s' (acc * 10 + Z.of_N d)%Z
    | None => None
    end
end.

Fixpoint digits (s : string) (acc : Z) (scale : positive) (after_point : bool)
  : option Q :=
match s with
| "" => Some (Qmake acc scale)
| String c s' =>
    if Ascii.eqb c "." then
      if after_point then None else digits s' acc scale true
    else
      match JSObject.digit_val c with
      | Some d =>
          digits s' (acc * 10 + Z.of_N d)%Z
            (if after_point then (scale * 10)%positive else scale) after_point
      | None => None
      end
end.

Definition value (s : string) : option Q :=
match s with
| "" => None
| String c s' =>
    if Ascii.eqb c "-" then option_map Qopp (digits s' 0 1 false)
    else digits s 0 1 false
end.

Definition pow10 (k : nat) : positive := Z.to_pos (10 ^ Z.of_nat k).

End Decimal.

(** Two code units are the same letter when they are equal or one is the
    upper-case form of the other. *)
Module CaseInsensitive.

Definition upper_of (u l : ascii) : Prop :=
  JSString.is_upper u = true /\ N_of_ascii l = (N_of_ascii u + 32)%N.

Definition same_letter (a b : ascii) : Prop :=
  a = b \/ upper_of a b \/ upper_of b a.

Inductive matches : string -> string -> Prop :=
| matches_nil : matches "" ""
| matches_cons a b s t :
    same_letter a b -> matches s t -> matches (String a s) (String b t).

End CaseInsensitive.

(** The pattern an order line gets, as the two branches build it. *)
Definition pattern_of {num} {N : Number num} (coilWidth : num) (item : Item.t num)
  : Pattern.t num :=
  if geb (Item.width item) coilWidth then
    Pattern.FullWidth (Item.productId item) (Item.quantity item) (Item.length item)
      (mul (Item.quantity item) (Item.length item))
  else
    let piecesPerRow := Math_floor (div coilWidth (Item.width item)) in
    let rowsNeeded := Math_ceil (div (Item.quantity item) piecesPerRow) in
    Pattern.NestedTrim (Item.productId item) (Item.quantity item) (Item.width item)
      piecesPerRow rowsNeeded (Item.length item) (mul rowsNeeded (Item.length item))
      (toFixed 1 (mul (div (mul (Item.width item) piecesPerRow) coilWidth) (lit 100)) ++ "%").

(** The sum of a list of numbers, accumulated from the left as [+=] does. *)
Definition sum {num} {N : Number num} (l : list num) : num :=
  fold_left add l (lit 0).

(** [coilWidth] after the default of the destructuring. *)
Definition coilWidth_of {num} {N : Number num} (body : Body.t num) : num :=
  match Body.coilWidth body with
  | Some w => w
  | None => lit 43.875
  end.

(** The items of one colour, the entry of [optimization] made from an entry
    of [colorGroups], and the requests on which the grouping loop throws:
    those with a colour that [Object.prototype] defines. *)
Definition has_color {num} {N : Number num} (c : string) (item : Item.t num) : bool :=
  String.eqb (color_of item) c.

Definition group_entry {num} {N : Number num} (recommended : bool) (coilWidth : num)
    (e : string * list (Item.t num)) : string * Group.t num :=
  (fst e, optimize_color recommended coilWidth (fst e) (snd e)).


(** The classification rule in words: a line at least as wide as the coil
    is cut at full width, [quantity * length] feet of it; a narrower one is
    nested, [floor (coilWidth / width)] pieces to a row. *)
Definition classified {num} {N : Number num} (coilWidth : num) (item : Item.t num)
    (p : Pattern.t num) : Prop :=
  if geb (Item.width item) coilWidth then
    Pattern.type p = "Full Width" /\
    Pattern.totalFeet p = mul (Item.quantity item) (Item.length item)
  else
    exists piecesPerRow rowsNeeded efficiency,
      p = Pattern.NestedTrim (Item.productId item) (Item.quantity item) (Item.width item)
            piecesPerRow rowsNeeded (Item.length item) (Pattern.totalFeet p) efficiency /\
      piecesPerRow = Math_floor (div coilWidth (Item.width item)) /\
      rowsNeeded = Math_ceil (div (Item.quantity item) piecesPerRow) /\
      Pattern.totalFeet p = mul rowsNeeded (Item.length item).

(** Requests of the scenarios. *)
Module Scenario.

Definition line (productId color : string) (quantity length width : float)
  : Item.t float :=
  {| Item.productId := productId; Item.color := Some color;
     Item.quantity := quantity; Item.length := length; Item.width := width |}.

Definition request (items : list (Item.t float)) (coilWidth : float) : Body.t float :=
  {| Body.items := Some items; Body.coilWidth := Some coilWidth |}.

(** A: one full-width line of "Ash Gray". *)
Definition A : Body.t float :=
  request [line "A4AG" "Ash Gray" 45 16 43.875] 43.875.

(** B: one nested line. *)
Definition B : Body.t float :=
  request [line "RIDGE-AG" "Ash Gray" 15 10 14] 43.875.

(** C: no order line. *)
Definition C : Body.t float :=
  {| Body.items := Some []; Body.coilWidth := None |}.

(** D: two colours, 100 feet each before scrap. *)
Definition D : Body.t float :=
  request [line "A4AG" "Ash Gray" 10 10 43.875; line "A4BK" "Black" 4 25 43.875] 43.875.

End Scenario.

(** The footage before scrap and with scrap, summed over the groups of an
    answer in the order the groups were made. *)
Definition sum_base {num} {N : Number num} (optimization : JSObject.t (Group.t num)) : num :=
sum (map (fun e => Group.baseLinearFeet (snd e)) optimization).

Definition sum_total {num} {N : Number num} (optimization : JSObject.t (Group.t num)) : num :=
sum (map (fun e => Group.totalLinearFeet (snd e)) optimization).

(** A reported figure is exact when its numeral stands for the double it
    was made from; the reported figures add up when the numerals do. *)
Definition reports (figure : string) (x : float) : Prop :=
exists q v, Decimal.value figure = Some q /\ exact_value x = Some v /\ q == v.

Definition adds_up (s : Summary.t float) : Prop :=
exists l c t,
  Decimal.value (Summary.totalLinearFeet s) = Some l /\
  Decimal.value (Summary.scrapFeet s) = Some c /\
  Decimal.value (Summary.totalWithScrap s) = Some t /\
  t == l + c.





(** More requests. *)
Module Example.

(** One line of 10.125 feet. *)
Definition eighth : Body.t float :=
Scenario.request [Scenario.line "A4AG" "Ash Gray" 1 10.125 43.875] 43.875.


(** More feet than a double holds. *)
Definition overflow : Body.t float :=
Scenario.request [Scenario.line "A4AG" "Ash Gray" 1e308 10 43.875] 43.875.

(** Trim of 0.1 on a coil of 1.7. *)
Definition narrow : Body.t float :=
Scenario.request [Scenario.line "TRIM" "Ash Gray" 3 2 0.1] 1.7.



(** A line without its quantity. *)
Definition missing : Body.t float :=
Scenario.request
  [Scenario.line "A4AG" "Ash Gray" 45 16 43.875;
   Scenario.line "RIDGE-AG" "Ash Gray" nan 10 14] 43.875.

(** Colours that are numerals. *)
Definition numbered : list (Item.t float) :=
[ Scenario.line "P1" "b" 1 1 50; Scenario.line "P2" "7" 2 1 50;
  Scenario.line "P3" "10" 3 1 50; Scenario.line "P4" "07" 4 1 50;
  Scenario.line "P5" "b" 5 1 50; Scenario.line "P6" "2" 6 1 50 ].

(** Scenario B over the rationals. *)
Definition exact_line : Item.t Q :=
{| Item.productId := "RIDGE-AG"; Item.color := Some "Ash Gray";
   Item.quantity := 15; Item.length := 10; Item.width := 14 |}.

Definition exact_B : Body.t Q :=
{| Body.items := Some [exact_line]; Body.coilWidth := Some 43.875 |}.

End Example.

(** Packing in exact arithmetic: a line narrower than the coil is nested,
    at least one piece to a row and no wider than the coil in all. *)
Definition packs (coilWidth : Q) (item : Item.t Q) (p : Pattern.t Q) : Prop :=
0 < Item.width item -> Item.width item < coilWidth ->
exists piecesPerRow rowsNeeded efficiency,
  p = Pattern.NestedTrim (Item.productId item) (Item.quantity item) (Item.width item)
        piecesPerRow rowsNeeded (Item.length item)
        (rowsNeeded * Item.length item) efficiency /\
  piecesPerRow = inject_Z (Qfloor (coilWidth / Item.width item)) /\
  1 <= piecesPerRow /\
  piecesPerRow * Item.width item <= coilWidth /\
  rowsNeeded = inject_Z (Qceiling (Item.quantity item / piecesPerRow)).

(** ** The other endpoints *)

(** [GET /api/test/optimize]: the same statements as the optimisation
    endpoint, without the recommended coil, run on three sample items with
    a coil of 43.875; its [catch] block answers with the message alone. *)
Module TestEndpoint.


Inductive Response {num : Type} : Type :=
| Ok200 (message : string) (optimization : JSObject.t (Group.t num))
    (summary : Summary.t num)
| ServerError500 (error : string).
Arguments Response : clear implicits.


End TestEndpoint.

(** The colours of a request in the order they first appear. *)
Fixpoint first_seen (colors : list string) : list string :=
match colors with
| [] => []
| c :: rest => c :: filter (fun c' => negb (String.eqb c' c)) (first_seen rest)
end.

Definition is_index (k : string) : bool :=
match JSObject.array_index k with
| Some _ => true
| None => false
end.

(** Two array-index keys in ascending order. *)
Definition index_le (a b : string) : Prop :=
match JSObject.array_index a, JSObject.array_index b with
| Some i, Some j => (i <= j)%N
| _, _ => False
end.


(** The indexed properties of an object in ascending order. *)
Definition index_sorted {V} (l : list (N * (string * V))) : Prop :=
StronglySorted (fun a b => (fst a <= fst b)%N) l.

(** A key that is none of the given ones. *)
Definition fresh (ks : list string) (k : string) : bool :=
negb (existsb (String.eqb k) ks).




(** Worlds and requests of the examples. *)
Module ServerExample.
Import Server.

Definition started : World :=
{| state := {| PARADIGM_CONFIG := None; authToken := None; tokenExpiry := None |};
   now := 1700000000000;
   console := [];
   cache := None |}.

Definition production : Env :=
{| NODE_ENV := Some "production"; GOOGLE_CLOUD_PROJECT := None;
   PARADIGM_API_URL := None; PARADIGM_API_KEY := None;
   PARADIGM_USERNAME := None; PARADIGM_PASSWORD := None |}.

Definition no_secrets (name : string) : option string := None.

Definition configured : World := snd (loadSecrets production no_secrets started).

(** Paradigm answers with a token after 250 milliseconds. *)
Definition grants (request : TokenRequest) : Outcome string * Z :=
(Resolved "token-1", 1700000000250%Z).


(** Paradigm lists a coil, a plank and a product without identifier. *)
Definition lists (request : InventoryRequest)
  : Outcome (list Inventory.Product) * Z :=
(Resolved
   [ {| Inventory.StrCategory := Some "Coils"; Inventory.StrProductID := Some "CO2029AG" |};
     {| Inventory.StrCategory := Some "Lumber"; Inventory.StrProductID := Some "2X4" |};
     {| Inventory.StrCategory := None; Inventory.StrProductID := None |} ],
 1700000000900%Z).

Definition answers (t : Z) : Outcome unit * Z := (Resolved tt, t).

End ServerExample.

(** A cache that holds metal roofing products only. *)
Definition cache_filtered (w : Server.World) : Prop :=
match Server.cache w with
| Some (data, _) => Forall (fun p => Inventory.is_metal_roofing p = true) data
| None => True
end.

(** A figure that differs from the double it was made from by no more
    than a tolerance, and the doubles that [toFixed] prints in digits:
    the finite ones below 10^21 in magnitude. *)
Definition within (tolerance : Q) (figure : string) (x : float) : Prop :=
exists q v,
  Decimal.value figure = Some q /\ exact_value x = Some v /\ Qabs (q - v) <= tolerance.

Definition printable (x : float) : Prop :=
match Prim2SF x with
| S754_zero _ => True
| S754_finite _ _ _ => PrimFloat.leb 1e21 (PrimFloat.abs x) = false
| _ => False
end.

(** * Properties *)

Local Open Scope list_scope.

(** ** Objects as maps *)

Module JSObjectFacts.
Import JSObject.

Section Facts.
Context {V : Type}.
Implicit Types (o : t V) (k : string) (v : V).

Lemma get_own_set_same k v o : get_own k (set k v o) = Some v.
Proof.
  induction o as [|[k' v'] o IH]; simpl.
  - now rewrite String.eqb_refl.
  - destruct (String.eqb k k') eqn:E; simpl.
    + now rewrite String.eqb_refl.
    + now rewrite E.
Qed.

Lemma get_own_set_other k k' v o :
  k <> k' -> get_own k' (set k v o) = get_own k' o.
Proof.
  intros Hne. induction o as [|[k0 v0] o IH]; simpl.
  - destruct (String.eqb k' k) eqn:E; [|reflexivity].
    apply String.eqb_eq in E. congruence.
  - destruct (String.eqb k k0) eqn:E; simpl.
    + apply String.eqb_eq in E. subst k0.
      destruct (String.eqb k' k) eqn:E'; [|reflexivity].
      apply String.eqb_eq in E'. congruence.
    + now rewrite IH.
Qed.

Lemma get_own_None_notin k o :
  get_own k o = None <-> ~ In k (map fst o).
Proof.
  induction o as [|[k' v'] o IH]; simpl.
  - tauto.
  - destruct (String.eqb k k') eqn:E.
    + apply String.eqb_eq in E. subst. split; [discriminate | tauto].
    + apply String.eqb_neq in E. rewrite IH. split; [|tauto].
      intros H [H'|H']; [congruence | tauto].
Qed.

Lemma get_own_In k v o : get_own k o = Some v -> In (k, v) o.
Proof.
  induction o as [|[k' v'] o IH]; simpl; [discriminate|].
  destruct (String.eqb k k') eqn:E.
  - apply String.eqb_eq in E. intros [= ->]. subst. now left.
  - auto.
Qed.

Lemma In_get_own k v o :
  NoDup (map fst o) -> In (k, v) o -> get_own k o = Some v.
Proof.
  induction o as [|[k' v'] o IH]; simpl; [tauto|].
  intros Hnd [H|H].
  - injection H as -> ->. now rewrite String.eqb_refl.
  - inversion Hnd as [|? ? Hnotin Hnd']; subst.
    destruct (String.eqb k k') eqn:E; [|auto].
    apply String.eqb_eq in E. subst k'.
    exfalso. apply Hnotin. change k with (fst (k, v)). now apply in_map.
Qed.

(** Writing a new key puts it last; writing an old one keeps the keys. *)
Lemma set_new k v o : get_own k o = None -> set k v o = o ++ [(k, v)].
Proof.
  induction o as [|[k' v'] o IH]; simpl; [reflexivity|].
  destruct (String.eqb k k'); [discriminate|].
  intros H. now rewrite IH.
Qed.

Lemma keys_set_old k v v' o :
  get_own k o = Some v' -> map fst (set k v o) = map fst o.
Proof.
  induction o as [|[k0 v0] o IH]; simpl; [discriminate|].
  destruct (String.eqb k k0) eqn:E; simpl.
  - apply String.eqb_eq in E. now subst.
  - intros H. now rewrite IH.
Qed.

Lemma NoDup_set k v o : NoDup (map fst o) -> NoDup (map fst (set k v o)).
Proof.
  intros Hnd. destruct (get_own k o) as [v'|] eqn:E.
  - now rewrite (keys_set_old _ _ _ _ E).
  - rewrite (set_new _ _ _ E), map_app. simpl.
    apply get_own_None_notin in E.
    apply NoDup_app; [assumption | repeat constructor; simpl; tauto |].
    intros x Hx [<-|[]]. contradiction.
Qed.

(** [Object.entries] rearranges the properties, no more. *)
Lemma insert_index_perm i (p : string * V) l :
  Permutation (insert_index i p l) ((i, p) :: l).
Proof.
  induction l as [|[j q] l IH]; simpl; [reflexivity|].
  destruct (i <=? j)%N; [reflexivity|].
  rewrite IH. apply perm_swap.
Qed.

Lemma entries_perm o : Permutation (entries o) o.
Proof.
  unfold entries, indexed, named.
  induction o as [|[k v] o IH]; simpl; [reflexivity|].
  destruct (array_index k) as [i|].
  - rewrite insert_index_perm. simpl. now apply perm_skip.
  - rewrite <- Permutation_middle. now apply perm_skip.
Qed.

Lemma entries_In o p : In p (entries o) <-> In p o.
Proof.
  split; apply Permutation_in;
    [apply entries_perm | apply Permutation_sym, entries_perm].
Qed.

Lemma entries_NoDup o : NoDup (map fst o) -> NoDup (map fst (entries o)).
Proof.
  apply Permutation_NoDup, Permutation_map,
    Permutation_sym, entries_perm.
Qed.

End Facts.

End JSObjectFacts.

(** ** The handler, for any numbers *)

Section EngineFacts.

Context {num : Type} {N : Number num}.
Implicit Types (item : Item.t num) (items : list (Item.t num)).

Lemma item_step_pattern coilWidth linearFeet patterns item :
  item_step coilWidth (linearFeet, patterns) item =
  (add linearFeet (Pattern.totalFeet (pattern_of coilWidth item)),
   patterns ++ [pattern_of coilWidth item]).
Proof.
  unfold item_step, pattern_of.
  destruct (geb (Item.width item) coilWidth); reflexivity.
Qed.

Lemma fold_item_step coilWidth items : forall linearFeet patterns,
  fold_left (item_step coilWidth) items (linearFeet, patterns) =
  (fold_left add (map Pattern.totalFeet (map (pattern_of coilWidth) items)) linearFeet,
   patterns ++ map (pattern_of coilWidth) items).
Proof.
  induction items as [|item items IH]; intros linearFeet patterns; cbn [fold_left map].
  - now rewrite app_nil_r.
  - rewrite item_step_pattern, IH, <- app_assoc. reflexivity.
Qed.

Lemma optimize_color_eq recommended coilWidth color items :
  optimize_color recommended coilWidth color items =
  let patterns := map (pattern_of coilWidth) items in
  let linearFeet := sum (map Pattern.totalFeet patterns) in
  let scrapAmount := mul linearFeet (Config.scrapFactor BUSINESS_CONFIG) in
  let totalNeeded := add linearFeet scrapAmount in
  {| Group.items := items;
     Group.patterns := patterns;
     Group.baseLinearFeet := linearFeet;
     Group.scrapFeet := scrapAmount;
     Group.totalLinearFeet := totalNeeded;
     Group.coilsNeeded :=
       Math_ceil (div totalNeeded (Config.standardRollLength BUSINESS_CONFIG));
     Group.efficiency := (toFixed 2 (mul (div linearFeet totalNeeded) (lit 100)) ++ "%")%string;
     Group.recommendedCoil :=
       if recommended then Some (selectCoilProduct color coilWidth) else None |}.
Proof.
  unfold optimize_color. rewrite fold_item_step. reflexivity.
Qed.

(** *** Grouping by colour *)

Lemma group_item_get colorGroups item colorGroups' :
  group_item colorGroups item = Some colorGroups' ->
  exists l,
    colorGroups' = JSObject.set (color_of item) (l ++ [item]) colorGroups /\
    (JSObject.get_own (color_of item) colorGroups = Some l \/
     JSObject.get_own (color_of item) colorGroups = None /\ l = []).
Proof.
  unfold group_item, JSObject.get.
  destruct (JSObject.get_own (color_of item) colorGroups) as [l|] eqn:E.
  - intros [= <-]. exists l. auto.
  - destruct (JSObject.inherited (color_of item)); [discriminate|].
    intros [= <-]. exists []. auto.
Qed.

(** After the loop, the group of a colour is what it was before, followed
    by the items of that colour in the order of the request. *)
Lemma group_items_get items : forall colorGroups colorGroups',
  group_items items colorGroups = Some colorGroups' ->
  forall c,
    JSObject.get_own c colorGroups' =
    match JSObject.get_own c colorGroups, filter (has_color c) items with
    | Some l, f => Some (l ++ f)
    | None, [] => None
    | None, f => Some f
    end.
Proof.
  induction items as [|item items IH]; intros o o' Hrun c; simpl in Hrun.
  - injection Hrun as <-. simpl.
    destruct (JSObject.get_own c o); [now rewrite app_nil_r | reflexivity].
  - destruct (group_item o item) as [o1|] eqn:Hstep; [|discriminate].
    rewrite (IH _ _ Hrun c). simpl.
    destruct (group_item_get _ _ _ Hstep) as (l & -> & Hl).
    destruct (has_color c item) eqn:E; unfold has_color in E.
    + apply String.eqb_eq in E. subst c.
      rewrite JSObjectFacts.get_own_set_same.
      destruct Hl as [-> | [-> ->]]; [now rewrite <- app_assoc | reflexivity].
    + apply String.eqb_neq in E.
      now rewrite (JSObjectFacts.get_own_set_other _ _ _ _ E).
Qed.

Lemma group_items_NoDup items : forall colorGroups colorGroups',
  group_items items colorGroups = Some colorGroups' ->
  NoDup (map fst colorGroups) -> NoDup (map fst colorGroups').
Proof.
  induction items as [|item items IH]; intros o o' Hrun Hnd; simpl in Hrun.
  - now injection Hrun as <-.
  - destruct (group_item o item) as [o1|] eqn:Hstep; [|discriminate].
    apply (IH _ _ Hrun).
    destruct (group_item_get _ _ _ Hstep) as (l & -> & _).
    now apply JSObjectFacts.NoDup_set.
Qed.


(** *** The loop over the colours *)

Lemma fold_color_step recommended coilWidth es : forall optimization l t,
  NoDup (map fst optimization ++ map fst es) ->
  fold_left (color_step recommended coilWidth) es (optimization, l, t) =
  (optimization ++ map (group_entry recommended coilWidth) es,
   fold_left add
     (map (fun e => Group.baseLinearFeet (snd (group_entry recommended coilWidth e))) es) l,
   fold_left add
     (map (fun e => Group.totalLinearFeet (snd (group_entry recommended coilWidth e))) es) t).
Proof.
  induction es as [|e es IH]; intros o l t Hnd; simpl.
  - now rewrite app_nil_r.
  - assert (Hnew : JSObject.get_own (fst e) o = None).
    { apply JSObjectFacts.get_own_None_notin. intros Hin.
      apply NoDup_remove_2 in Hnd. apply Hnd, in_app_iff. now left. }
    rewrite (JSObjectFacts.set_new _ _ _ Hnew), IH.
    + rewrite <- app_assoc. reflexivity.
    + rewrite map_app, <- app_assoc. exact Hnd.
Qed.

(** *** The whole computation *)

Theorem run_eq recommended items coilWidth :
  run recommended items coilWidth =
  match group_items items [] with
  | None => None
  | Some colorGroups =>
      let optimization :=
        map (group_entry recommended coilWidth) (JSObject.entries colorGroups) in
      Some (optimization,
            summarize coilWidth
              (sum (map (fun e => Group.baseLinearFeet (snd e)) optimization))
              (sum (map (fun e => Group.totalLinearFeet (snd e)) optimization)))
  end.
Proof.
  unfold run. destruct (group_items items []) as [cg|] eqn:Hg; [|reflexivity].
  rewrite fold_color_step.
  - simpl. unfold sum. now rewrite !map_map.
  - simpl. apply JSObjectFacts.entries_NoDup.
    apply (group_items_NoDup _ _ _ Hg). constructor.
Qed.


(** The groups of a result: one for each colour of the request, holding
    the items of that colour in the order of the request. *)
Lemma run_groups recommended items coilWidth optimization summary :
  run recommended items coilWidth = Some (optimization, summary) ->
  forall c g,
    In (c, g) optimization <->
    filter (has_color c) items <> [] /\
    g = optimize_color recommended coilWidth c (filter (has_color c) items).
Proof.
  rewrite run_eq. destruct (group_items items []) as [cg|] eqn:Hg; [|discriminate].
  intros [= <- _] c g.
  pose proof (group_items_get _ _ _ Hg c) as Hget. simpl in Hget.
  pose proof (group_items_NoDup _ _ _ Hg (NoDup_nil _)) as Hnd.
  rewrite in_map_iff. split.
  - intros ([c' l] & Heq & Hin). injection Heq as -> <-. simpl.
    apply JSObjectFacts.entries_In, (JSObjectFacts.In_get_own _ _ _ Hnd) in Hin.
    rewrite Hin in Hget.
    destruct (filter (has_color c) items); [discriminate|].
    injection Hget as ->. split; [discriminate | reflexivity].
  - intros [Hne ->].
    exists (c, filter (has_color c) items). split; [reflexivity|].
    apply JSObjectFacts.entries_In, JSObjectFacts.get_own_In.
    rewrite Hget. destruct (filter (has_color c) items); [contradiction | reflexivity].
Qed.

Lemma run_keys_NoDup recommended items coilWidth optimization summary :
  run recommended items coilWidth = Some (optimization, summary) ->
  NoDup (map fst optimization).
Proof.
  rewrite run_eq. destruct (group_items items []) as [cg|] eqn:Hg; [|discriminate].
  intros [= <- _]. rewrite map_map. simpl.
  apply JSObjectFacts.entries_NoDup, (group_items_NoDup _ _ _ Hg). constructor.
Qed.

Lemma run_summary recommended items coilWidth optimization summary :
  run recommended items coilWidth = Some (optimization, summary) ->
  summary =
  summarize coilWidth
    (sum (map (fun e => Group.baseLinearFeet (snd e)) optimization))
    (sum (map (fun e => Group.totalLinearFeet (snd e)) optimization)).
Proof.
  rewrite run_eq. destruct (group_items items []); [|discriminate].
  now intros [= <- <-].
Qed.

(** What [optimize] answers, case by case. *)
Lemma optimize_cases (body : Body.t num) :
  optimize body =
  match Body.items body with
  | None | Some [] => BadRequest400 "No items provided"
  | Some items =>
      match run true items (coilWidth_of body) with
      | Some (optimization, summary) => Ok200 optimization summary
      | None =>
          ServerError500 "Optimization failed" "colorGroups[color].push is not a function"
      end
  end.
Proof. reflexivity. Qed.

Lemma optimize_Ok200 (body : Body.t num) optimization summary :
  optimize body = Ok200 optimization summary ->
  exists items,
    Body.items body = Some items /\ items <> [] /\
    run true items (coilWidth_of body) = Some (optimization, summary).
Proof.
  rewrite optimize_cases.
  destruct (Body.items body) as [[|item items]|]; try discriminate.
  destruct (run true (item :: items) (coilWidth_of body)) as [[o s]|] eqn:Hrun;
    [|discriminate].
  intros [= <- <-]. exists (item :: items). repeat split; [discriminate | exact Hrun].
Qed.

(** The patterns of a group of an answer are those of its items. *)
Lemma optimize_patterns (body : Body.t num) optimization summary :
optimize body = Ok200 optimization summary ->
forall c g, In (c, g) optimization ->
  Group.patterns g = map (pattern_of (coilWidth_of body)) (Group.items g).
Proof.
intros Hok c g Hg. destruct (optimize_Ok200 _ _ _ Hok) as (items' & _ & _ & Hrun).
apply (run_groups _ _ _ _ _ Hrun) in Hg. destruct Hg as [_ ->].
now rewrite optimize_color_eq.
Qed.


End EngineFacts.

(** ** The optimisation endpoint as the server runs it *)

Lemma pattern_of_classified {num} {N : Number num} (coilWidth : num) (item : Item.t num) :
  classified coilWidth item (pattern_of coilWidth item).
Proof.
  unfold classified, pattern_of.
  destruct (geb (Item.width item) coilWidth).
  - split; reflexivity.
  - do 3 eexists. repeat split; reflexivity.
Qed.

Lemma Forall2_classified {num} {N : Number num} (coilWidth : num) (items : list (Item.t num)) :
  Forall2 (classified coilWidth) items (map (pattern_of coilWidth) items).
Proof.
  induction items; simpl; constructor; auto using pattern_of_classified.
Qed.

Lemma In_own_group {num} {N : Number num} (items : list (Item.t num)) (item : Item.t num) :
  In item items -> In item (filter (has_color (color_of item)) items).
Proof.
  intros Hin. apply filter_In. split; [assumption|].
  unfold has_color. apply String.eqb_refl.
Qed.

(** C1. Every order line of a request that [optimize] answers with 200 is
    in the group of its colour, and the patterns of a group are those of
    its lines, one for one: a line with [width >= coilWidth] is "Full Width"
    with [totalFeet = quantity * length]; any other is "Nested Trim" with
    [piecesPerRow = floor (coilWidth / width)],
    [rowsNeeded = ceil (quantity / piecesPerRow)] and
    [totalFeet = rowsNeeded * length].  The nested line
    {quantity: 15, length: 10, width: 14} on a coil of 43.875 gets
    3 pieces per row, 5 rows and 50 feet. *)
Theorem C1_line_patterns (body : Body.t float) optimization summary :
  optimize body = Ok200 optimization summary ->
  (exists items,
     Body.items body = Some items /\
     forall item, In item items ->
       exists g, In (color_of item, g) optimization /\ In item (Group.items g)) /\
  (forall c g, In (c, g) optimization ->
     Forall2 (classified (coilWidth_of body)) (Group.items g) (Group.patterns g)) /\
  (exists g s,
     optimize Scenario.B = Ok200 [("Ash Gray", g)] s /\
     exists efficiency,
       Group.patterns g = [Pattern.NestedTrim "RIDGE-AG" 15%float 14%float 3%float 5%float 10%float 50%float
                           efficiency]).
Proof.
  intros Hok. destruct (optimize_Ok200 _ _ _ Hok) as (items & Hitems & _ & Hrun).
  pose proof (run_groups _ _ _ _ _ Hrun) as Hgroups.
  split; [|split].
  - exists items. split; [assumption|]. intros item Hin.
    exists (optimize_color true (coilWidth_of body) (color_of item)
              (filter (has_color (color_of item)) items)).
    pose proof (In_own_group _ _ Hin) as Hin'. split.
    + apply Hgroups. split; [|reflexivity]. intros E. now rewrite E in Hin'.
    + now rewrite optimize_color_eq.
  - intros c g Hg. apply Hgroups in Hg. destruct Hg as [_ ->].
    rewrite optimize_color_eq. apply Forall2_classified.
  - do 2 eexists. split; [vm_compute; reflexivity|]. eexists. reflexivity.
Qed.

Lemma C1_line_patterns_witness :
  exists optimization summary,
    optimize Scenario.B = Ok200 optimization summary /\
    forall c g, In (c, g) optimization ->
      Forall2 (classified (coilWidth_of Scenario.B)) (Group.items g) (Group.patterns g).
Proof.
  do 2 eexists. split; [vm_compute; reflexivity|].
  exact (proj1 (proj2 (C1_line_patterns Scenario.B _ _ ltac:(vm_compute; reflexivity)))).
Defined.

(** C2. In every group of a 200 answer, [baseLinearFeet] is the sum of the
    [totalFeet] of its patterns, [scrapFeet = baseLinearFeet * scrapFactor],
    [totalLinearFeet = baseLinearFeet + scrapFeet] and
    [coilsNeeded = ceil (totalLinearFeet / standardRollLength)].  Scenario A
    gives one group, "Ash Gray", with 720, 36, 756 and 8. *)
Theorem C2_group_totals (body : Body.t float) optimization summary :
  optimize body = Ok200 optimization summary ->
  (forall c g, In (c, g) optimization ->
     Group.baseLinearFeet g = sum (map Pattern.totalFeet (Group.patterns g)) /\
     Group.scrapFeet g = mul (Group.baseLinearFeet g) (Config.scrapFactor BUSINESS_CONFIG) /\
     Group.totalLinearFeet g = add (Group.baseLinearFeet g) (Group.scrapFeet g) /\
     Group.coilsNeeded g =
       Math_ceil (div (Group.totalLinearFeet g) (Config.standardRollLength BUSINESS_CONFIG))) /\
  (exists g s,
     optimize Scenario.A = Ok200 [("Ash Gray", g)] s /\
     Group.baseLinearFeet g = 720%float /\ Group.scrapFeet g = 36%float /\
     Group.totalLinearFeet g = 756%float /\ Group.coilsNeeded g = 8%float).
Proof.
  intros Hok. destruct (optimize_Ok200 _ _ _ Hok) as (items & _ & _ & Hrun).
  split.
  - intros c g Hg. apply (run_groups _ _ _ _ _ Hrun) in Hg. destruct Hg as [_ ->].
    rewrite optimize_color_eq. simpl. auto.
  - do 2 eexists. split; [vm_compute; reflexivity|]. repeat split.
Qed.

Lemma C2_group_totals_witness :
  exists optimization summary,
    optimize Scenario.A = Ok200 optimization summary /\
    forall c g, In (c, g) optimization ->
      Group.totalLinearFeet g = add (Group.baseLinearFeet g) (Group.scrapFeet g).
Proof.
  do 2 eexists. split; [vm_compute; reflexivity|].
  intros c g Hg.
  apply (proj1 (C2_group_totals Scenario.A _ _ ltac:(vm_compute; reflexivity)) c g Hg).
Defined.

Lemma optimize_summary {num} {N : Number num} (body : Body.t num) optimization summary :
optimize body = Ok200 optimization summary ->
summary = summarize (coilWidth_of body) (sum_base optimization) (sum_total optimization).
Proof.
intros Hok. destruct (optimize_Ok200 _ _ _ Hok) as (items & _ & _ & Hrun).
exact (run_summary _ _ _ _ _ Hrun).
Qed.

(** C3, as the code has it. The three footage figures of the summary are
    the two-decimal renderings of the sum of the groups' [baseLinearFeet],
    of the sum of their [totalLinearFeet], and of the difference of these
    two sums, each rounded on its own.  For two colours of 100 feet each
    they read 200.00, 10.00 and 210.00. *)
Theorem C3_summary_totals (body : Body.t float) optimization summary :
optimize body = Ok200 optimization summary ->
(Summary.totalLinearFeet summary = toFixed 2 (sum_base optimization) /\
 Summary.totalWithScrap summary = toFixed 2 (sum_total optimization) /\
 Summary.scrapFeet summary =
   toFixed 2 (sub (sum_total optimization) (sum_base optimization))) /\
(exists o s,
   optimize Scenario.D = Ok200 o s /\
   map fst o = ["Ash Gray"; "Black"] /\
   Summary.totalLinearFeet s = "200.00" /\
   Summary.scrapFeet s = "10.00" /\
   Summary.totalWithScrap s = "210.00").
Proof.
intros Hok. rewrite (optimize_summary _ _ _ Hok). split.
- repeat split.
- do 2 eexists. split; [vm_compute; reflexivity|]. repeat split.
Qed.

Lemma C3_summary_totals_witness :
exists optimization summary,
  optimize Scenario.D = Ok200 optimization summary /\
  Summary.scrapFeet summary =
    toFixed 2 (sub (sum_total optimization) (sum_base optimization)).
Proof.
do 2 eexists. split; [vm_compute; reflexivity|].
exact (proj2 (proj2 (proj1
  (C3_summary_totals Scenario.D _ _ ltac:(vm_compute; reflexivity))))).
Defined.

(** C3 as stated fails on a line of 10.125 feet: the summary reports
    10.13 feet, which is not the sum 10.125, and 0.51 and 10.63 beside it,
    which do not add up. *)
Lemma C3_counterexample :
exists optimization summary,
  optimize Example.eighth = Ok200 optimization summary /\
  ~ reports (Summary.totalLinearFeet summary) (sum_base optimization) /\
  ~ adds_up summary.
Proof.
do 2 eexists. split; [vm_compute; reflexivity|]. split.
- intros (q & v & Hq & Hv & Heq).
  vm_compute in Hq. vm_compute in Hv.
  injection Hq as <-. injection Hv as <-. vm_compute in Heq. discriminate.
- intros (l & c & t & Hl & Hc & Ht & Heq).
  vm_compute in Hl. vm_compute in Hc. vm_compute in Ht.
  injection Hl as <-. injection Hc as <-. injection Ht as <-.
  vm_compute in Heq. discriminate.
Qed.

(** Nor do the sums themselves add up once they overflow: the difference
    of two infinities is not a number. *)
Remark summary_overflow :
exists optimization summary,
  optimize Example.overflow = Ok200 optimization summary /\
  Summary.totalLinearFeet summary = "Infinity" /\
  Summary.scrapFeet summary = "NaN" /\
  Summary.totalWithScrap summary = "Infinity".
Proof.
do 2 eexists. split; [vm_compute; reflexivity|]. repeat split.
Qed.





(** ** The handler in exact arithmetic *)

Module ExactFacts.

Lemma geb_false (x y : Q) : x < y -> geb x y = false.
Proof.
intros Hlt. simpl. destruct (Qle_bool y x) eqn:E; [|reflexivity].
apply Qle_bool_iff in E. exfalso. exact (Qlt_not_le _ _ Hlt E).
Qed.

Lemma floor_ge_1 (W w : Q) : 0 < w -> w < W -> 1 <= inject_Z (Qfloor (W / w)).
Proof.
intros Hw Hlt. change 1 with (inject_Z 1). rewrite <- Zle_Qle.
rewrite <- (Qfloor_Z 1). apply Qfloor_resp_le.
apply Qle_shift_div_l; [assumption|]. rewrite Qmult_1_l. now apply Qlt_le_weak.
Qed.

Lemma floor_fits (W w : Q) : 0 < w -> inject_Z (Qfloor (W / w)) * w <= W.
Proof.
intros Hw.
assert (Hne : ~ w == 0) by (intros E; rewrite E in Hw; discriminate).
rewrite <- (Qmult_div_r W w Hne) at 2. rewrite (Qmult_comm w).
apply Qmult_le_compat_r; [apply Qfloor_le | now apply Qlt_le_weak].
Qed.

Lemma pattern_of_packs (W : Q) (item : Item.t Q) : packs W item (pattern_of W item).
Proof.
intros Hw Hlt. unfold pattern_of. rewrite (geb_false _ _ Hlt).
do 3 eexists. split; [reflexivity|].
split; [reflexivity|]. split; [now apply floor_ge_1|].
split; [now apply floor_fits | reflexivity].
Qed.

Lemma Forall2_packs (W : Q) (items : list (Item.t Q)) :
Forall2 (packs W) items (map (pattern_of W) items).
Proof.
induction items; simpl; constructor; auto using pattern_of_packs.
Qed.

End ExactFacts.

(** C6, as the code has it. The server divides in double precision, where
    [rowsNeeded] is [ceil (quantity / piecesPerRow)] and [piecesPerRow] is
    [floor (coilWidth / width)] of the rounded quotient.  With the same
    operations carried out exactly, a line with [0 < width < coilWidth] is
    nested with at least one piece per row,
    [piecesPerRow * width <= coilWidth] and
    [rowsNeeded = ceil (quantity / piecesPerRow)]. *)
Theorem C6_nested_packing :
(forall (body : Body.t float) optimization summary,
   optimize body = Ok200 optimization summary ->
   forall c g, In (c, g) optimization ->
     Forall2 (classified (coilWidth_of body)) (Group.items g) (Group.patterns g)) /\
(forall (body : Body.t Q) optimization summary,
   optimize body = Ok200 optimization summary ->
   forall c g, In (c, g) optimization ->
     Forall2 (packs (coilWidth_of body)) (Group.items g) (Group.patterns g)).
Proof.
split; intros body optimization summary Hok c g Hg;
  rewrite (optimize_patterns _ _ _ Hok c g Hg).
- apply Forall2_classified.
- apply ExactFacts.Forall2_packs.
Qed.

Lemma C6_nested_packing_witness :
exists optimization summary,
  optimize Example.exact_B = Ok200 optimization summary /\
  forall c g, In (c, g) optimization ->
    Forall2 (packs (coilWidth_of Example.exact_B)) (Group.items g) (Group.patterns g).
Proof.
do 2 eexists. split; [vm_compute; reflexivity|].
exact (proj2 C6_nested_packing Example.exact_B _ _ ltac:(vm_compute; reflexivity)).
Defined.

(** C6 as stated fails for trim of 0.1 on a coil of 1.7: the quotient
    rounds up to 17, the server packs 17 pieces to a row, and 17 widths are
    more than the coil, as doubles and as the numbers they stand for. *)
Lemma C6_counterexample :
exists g s efficiency,
  optimize Example.narrow = Ok200 [("Ash Gray", g)] s /\
  PrimFloat.ltb 0 0.1 = true /\ PrimFloat.ltb 0.1 1.7 = true /\
  Group.patterns g =
    [Pattern.NestedTrim "TRIM" 3%float 0.1%float 17%float 1%float 2%float 2%float
       efficiency] /\
  PrimFloat.leb (PrimFloat.mul 17 0.1) 1.7 = false /\
  exists w W, exact_value 0.1 = Some w /\ exact_value 1.7 = Some W /\ W < 17 * w.
Proof.
do 3 eexists. split; [vm_compute; reflexivity|].
repeat (split; [reflexivity|]).
do 2 eexists. repeat (split; [vm_compute; reflexivity|]). reflexivity.
Qed.




(** ** Efficiency *)







(** ** No hidden state *)


(** ** The coil product *)

Module CaseFacts.
Import JSString CaseInsensitive.

Lemma is_upper_spec (c : ascii) :
is_upper c = true <->
(65 <= N_of_ascii c <= 90 \/ (192 <= N_of_ascii c <= 222 /\ N_of_ascii c <> 215))%N.
Proof.
unfold is_upper.
rewrite orb_true_iff, !andb_true_iff, negb_true_iff, !N.leb_le, N.eqb_neq. tauto.
Qed.

Lemma N_of_toLower (c : ascii) :
N_of_ascii (toLower c) = if is_upper c then (N_of_ascii c + 32)%N else N_of_ascii c.
Proof.
unfold toLower. destruct (is_upper c) eqn:E; [|reflexivity].
apply N_ascii_embedding. apply is_upper_spec in E. lia.
Qed.

Lemma N_of_ascii_inj (a b : ascii) : N_of_ascii a = N_of_ascii b -> a = b.
Proof.
intros H. rewrite <- (ascii_N_embedding a), <- (ascii_N_embedding b). now rewrite H.
Qed.

Lemma toLower_same_letter (a b : ascii) :
toLower a = toLower b <-> same_letter a b.
Proof.
unfold same_letter, upper_of. split.
- intros H. apply (f_equal N_of_ascii) in H. rewrite !N_of_toLower in H.
  destruct (is_upper a) eqn:Ea, (is_upper b) eqn:Eb.
  + left. apply N_of_ascii_inj. lia.
  + right. left. auto.
  + right. right. auto.
  + left. now apply N_of_ascii_inj.
- intros H. apply N_of_ascii_inj. rewrite !N_of_toLower.
  destruct H as [<- | [[Hu Hn] | [Hu Hn]]]; [reflexivity | |].
  + rewrite Hu. destruct (is_upper b) eqn:Eb; [|now symmetry].
    apply is_upper_spec in Hu, Eb. lia.
  + rewrite Hu. destruct (is_upper a) eqn:Ea; [|assumption].
    apply is_upper_spec in Hu, Ea. lia.
Qed.

Lemma toLowerCase_matches (s t : string) :
toLowerCase s = toLowerCase t <-> matches s t.
Proof.
split.
- revert t. induction s as [|a s IH]; intros [|b t] H; simpl in H;
    try discriminate; [constructor|].
  injection H as Hc Hs. constructor; [now apply toLower_same_letter | auto].
- induction 1 as [|a b s t Hab _ IH]; simpl; [reflexivity|].
  apply toLower_same_letter in Hab. now rewrite Hab, IH.
Qed.

End CaseFacts.

(** The first entry whose name matches, or "CUSTOM". *)
Lemma find_code_spec (table : list (string * string)) (colorName : string) :
(exists name before after,
   table = before ++ (find_code table colorName, name) :: after /\
   JSString.toLowerCase name = JSString.toLowerCase colorName /\
   forall e, In e before ->
     JSString.toLowerCase (snd e) <> JSString.toLowerCase colorName) \/
(find_code table colorName = "CUSTOM" /\
 forall e, In e table -> JSString.toLowerCase (snd e) <> JSString.toLowerCase colorName).
Proof.
induction table as [|[code name] table IH]; simpl.
- right. split; [reflexivity | tauto].
- destruct (String.eqb (JSString.toLowerCase name) (JSString.toLowerCase colorName)) eqn:E.
  + apply String.eqb_eq in E. left. exists name, [], table. simpl. tauto.
  + apply String.eqb_neq in E.
    destruct IH as [(n & before & after & Ht & Hn & Hb) | [Hc Hall]].
    * left. exists n, ((code, name) :: before), after. simpl. split; [now f_equal|].
      split; [assumption|]. intros e [<-|He]; auto.
    * right. split; [assumption|]. intros e [<-|He]; auto.
Qed.

(** No two names of the colour table match each other. *)
Lemma colors_distinct :
NoDup (map (fun e => JSString.toLowerCase (snd e))
         (Categories.colors PRODUCT_CATEGORIES)).
Proof.
apply (NoDup_count_occ' string_dec). intros x Hx.
repeat (destruct Hx as [<- | Hx]; [vm_compute; reflexivity|]). destruct Hx.
Qed.

Lemma lower_names_inj (table : list (string * string)) :
NoDup (map (fun e => JSString.toLowerCase (snd e)) table) ->
forall e e', In e table -> In e' table ->
  JSString.toLowerCase (snd e) = JSString.toLowerCase (snd e') -> e = e'.
Proof.
induction table as [|x table IH]; simpl; [tauto|].
intros Hnd e e' He He' Heq. inversion Hnd as [|? ? Hx Hnd']; subst.
assert (Hin : forall y, In y table ->
          In (JSString.toLowerCase (snd y))
             (map (fun e => JSString.toLowerCase (snd e)) table)).
{ intros y Hy. now apply (in_map (fun e => JSString.toLowerCase (snd e))). }
destruct He as [<-|He], He' as [<-|He']; auto.
- exfalso. apply Hx. rewrite Heq. auto.
- exfalso. apply Hx. rewrite <- Heq. auto.
Qed.

(** C9. [selectCoilProduct] returns a prefix chosen by the width ("CO20"
    for 20, "CO43875" otherwise), then "29", then a colour code: the key of
    the one entry of the colour table whose name is the given one up to
    the case of its letters, or "CUSTOM" when no name is. *)
Theorem C9_coil_product (color : string) (width : float) :
exists code,
  selectCoilProduct color width =
    ((if strict_eq width 20%float then "CO20" else "CO43875") ++ "29" ++ code)%string /\
  code = getColorCode color /\
  ((exists name,
      In (code, name) (Categories.colors PRODUCT_CATEGORIES) /\
      CaseInsensitive.matches name color /\
      forall code' name',
        In (code', name') (Categories.colors PRODUCT_CATEGORIES) ->
        CaseInsensitive.matches name' color -> code' = code) \/
   (code = "CUSTOM" /\
    forall code' name',
      In (code', name') (Categories.colors PRODUCT_CATEGORIES) ->
      ~ CaseInsensitive.matches name' color)).
Proof.
exists (getColorCode color). split; [reflexivity|]. split; [reflexivity|].
unfold getColorCode.
change (JSObject.entries (Categories.colors PRODUCT_CATEGORIES))
  with (Categories.colors PRODUCT_CATEGORIES).
destruct (find_code_spec (Categories.colors PRODUCT_CATEGORIES) color)
  as [(name & before & after & Ht & Hn & _) | [Hc Hall]].
- left. exists name.
  assert (Hin : In (find_code (Categories.colors PRODUCT_CATEGORIES) color, name)
                  (Categories.colors PRODUCT_CATEGORIES)).
  { rewrite Ht at 2. apply in_elt. }
  split; [exact Hin|]. split; [now apply CaseFacts.toLowerCase_matches|].
  intros code' name' Hin' Hm. apply CaseFacts.toLowerCase_matches in Hm.
  assert (E : (code', name') = (find_code (Categories.colors PRODUCT_CATEGORIES) color, name)).
  { apply (lower_names_inj _ colors_distinct); [assumption .. |]. simpl. congruence. }
  congruence.
- right. split; [assumption|]. intros code' name' Hin Hm.
  apply CaseFacts.toLowerCase_matches in Hm. exact (Hall _ Hin Hm).
Qed.

(** ** More on grouping *)

Section Grouping.

Context {num : Type} {N : Number num}.
Implicit Types (item : Item.t num) (items : list (Item.t num)).

Lemma flat_set_old (k : string) (l : list (Item.t num)) item
  (o : JSObject.t (list (Item.t num))) :
JSObject.get_own k o = Some l ->
Permutation (flat_map snd (JSObject.set k (l ++ [item]) o)) (flat_map snd o ++ [item]).
Proof.
induction o as [|[k' l'] o IH]; simpl; [discriminate|].
destruct (String.eqb k k') eqn:E; simpl.
- intros [= ->]. rewrite <- !app_assoc. apply Permutation_app_head, Permutation_app_comm.
- intros H. rewrite <- app_assoc. apply Permutation_app_head. auto.
Qed.

Lemma group_items_perm items : forall colorGroups colorGroups',
group_items items colorGroups = Some colorGroups' ->
Permutation (flat_map snd colorGroups') (flat_map snd colorGroups ++ items).
Proof.
induction items as [|item items IH]; intros o o' Hrun; simpl in Hrun.
- injection Hrun as <-. now rewrite app_nil_r.
- destruct (group_item o item) as [o1|] eqn:Hstep; [|discriminate].
  rewrite (IH _ _ Hrun).
  change (item :: items) with ([item] ++ items). rewrite app_assoc.
  apply Permutation_app_tail.
  destruct (group_item_get _ _ _ Hstep) as (l & -> & [Hl | [Hl ->]]).
  + now apply flat_set_old.
  + rewrite (JSObjectFacts.set_new _ _ _ Hl), flat_map_app. reflexivity.
Qed.

Lemma optimize_color_items recommended coilWidth c items :
Group.items (optimize_color recommended coilWidth c items) = items.
Proof. now rewrite optimize_color_eq. Qed.

(** X1. No order line is lost or counted twice: the items of the groups
    of an answer, taken together, are the items of the request, and there
    is one pattern for each of them. *)
Theorem items_conserved recommended items coilWidth optimization summary :
run recommended items coilWidth = Some (optimization, summary) ->
Permutation (flat_map (fun e => Group.items (snd e)) optimization) items /\
List.length (flat_map (fun e => Group.patterns (snd e)) optimization)
= List.length items.
Proof.
rewrite run_eq. destruct (group_items items []) as [cg|] eqn:Hg; [|discriminate].
intros [= <- _].
assert (Hperm : Permutation
          (flat_map (fun e => Group.items (snd e))
             (map (group_entry recommended coilWidth) (JSObject.entries cg))) items).
{ rewrite flat_map_concat_map, map_map. simpl.
  rewrite (map_ext _ snd) by (intros e; apply optimize_color_items).
  rewrite <- flat_map_concat_map, (Permutation_flat_map snd (JSObjectFacts.entries_perm cg)).
  exact (group_items_perm _ _ _ Hg). }
split; [exact Hperm|].
rewrite <- (Permutation_length Hperm).
rewrite !flat_map_concat_map, !map_map, !length_concat, !map_map. simpl.
f_equal. apply map_ext. intros e. rewrite optimize_color_eq. simpl. apply length_map.
Qed.

End Grouping.

(** ** The order of the groups *)

Lemma filter_filter {A} (p q : A -> bool) (l : list A) :
filter p (filter q l) = filter (fun x => p x && q x) l.
Proof.
induction l as [|x l IH]; simpl; [reflexivity|].
destruct (q x); simpl; rewrite ?andb_true_r, ?andb_false_r;
  [destruct (p x)|]; now rewrite IH.
Qed.

Lemma filter_map_fst {V} (p : string -> bool) (o : JSObject.t V) :
map fst (filter (fun e => p (fst e)) o) = filter p (map fst o).
Proof.
induction o as [|[k v] o IH]; simpl; [reflexivity|].
destruct (p k); simpl; now rewrite IH.
Qed.

Module KeyOrder.
Import JSObject.

Section Facts.
Context {V : Type}.

Lemma insert_index_In i (p : string * V) l x :
In x (insert_index i p l) <-> x = (i, p) \/ In x l.
Proof.
split; intros H.
- apply (Permutation_in _ (JSObjectFacts.insert_index_perm i p l)) in H. simpl in H.
  destruct H; auto.
- apply (Permutation_in _ (Permutation_sym (JSObjectFacts.insert_index_perm i p l))).
  simpl. destruct H; auto.
Qed.

Lemma insert_index_sorted i (p : string * V) l :
index_sorted l -> index_sorted (insert_index i p l).
Proof.
induction 1 as [|[j q] l Hs IH Hall]; simpl.
- repeat constructor.
- destruct (N.leb_spec i j).
  + constructor; [now constructor|]. constructor; [assumption|].
    eapply Forall_impl; [|exact Hall]. simpl. intros. lia.
  + constructor; [assumption|]. apply Forall_forall. intros x Hx.
    apply insert_index_In in Hx. destruct Hx as [-> | Hx]; simpl; [lia|].
    rewrite Forall_forall in Hall. exact (Hall _ Hx).
Qed.

Lemma indexed_sorted (o : t V) : index_sorted (indexed o).
Proof.
induction o as [|[k v] o IH]; simpl; [constructor|].
destruct (array_index k); [now apply insert_index_sorted | assumption].
Qed.

Lemma indexed_index (o : t V) x :
In x (indexed o) -> array_index (fst (snd x)) = Some (fst x).
Proof.
induction o as [|[k v] o IH]; simpl; [tauto|].
destruct (array_index k) eqn:E; [|assumption].
intros H. apply insert_index_In in H. destruct H as [-> | H]; auto.
Qed.

Lemma indexed_perm (o : t V) :
Permutation (map snd (indexed o))
  (filter (fun e => match array_index (fst e) with Some _ => true | None => false end) o).
Proof.
induction o as [|[k v] o IH]; simpl; [reflexivity|].
destruct (array_index k) eqn:E; [|assumption].
rewrite JSObjectFacts.insert_index_perm. simpl. now apply perm_skip.
Qed.

End Facts.

End KeyOrder.

Lemma fresh_In ks k : fresh ks k = false <-> In k ks.
Proof.
unfold fresh. rewrite negb_false_iff, existsb_exists. split.
- intros (x & Hx & E). apply String.eqb_eq in E. now subst.
- intros H. exists k. split; [assumption | apply String.eqb_refl].
Qed.

Lemma fresh_app ks k c : fresh (ks ++ [c]) k = fresh ks k && negb (String.eqb k c).
Proof.
unfold fresh. rewrite existsb_app. simpl. rewrite orb_false_r.
now rewrite negb_orb.
Qed.

(** The keys of [colorGroups] after the loop: those it had, then the new
    colours in the order they first appear. *)
Lemma group_items_keys {num} {N : Number num} (items : list (Item.t num)) :
forall colorGroups colorGroups',
group_items items colorGroups = Some colorGroups' ->
map fst colorGroups' =
map fst colorGroups
++ filter (fresh (map fst colorGroups)) (first_seen (map color_of items)).
Proof.
induction items as [|item items IH]; intros o o' Hrun; simpl in Hrun.
- injection Hrun as <-. simpl. now rewrite app_nil_r.
- destruct (group_item o item) as [o1|] eqn:Hstep; [|discriminate].
  rewrite (IH _ _ Hrun). simpl.
  destruct (group_item_get _ _ _ Hstep) as (l & -> & [Hl | [Hl ->]]).
  + rewrite (JSObjectFacts.keys_set_old _ _ _ _ Hl). f_equal.
    assert (Hin : In (color_of item) (map fst o)).
    { apply JSObjectFacts.get_own_In in Hl.
      change (color_of item) with (fst (color_of item, l)). now apply in_map. }
    apply fresh_In in Hin. rewrite Hin, filter_filter.
    apply filter_ext. intros k.
    destruct (fresh (map fst o) k) eqn:Ek; [simpl | reflexivity].
    destruct (String.eqb k (color_of item)) eqn:E; [|reflexivity].
    apply String.eqb_eq in E. congruence.
  + rewrite (JSObjectFacts.set_new _ _ _ Hl), map_app, <- app_assoc. simpl. f_equal.
    assert (Hnew : fresh (map fst o) (color_of item) = true).
    { destruct (fresh (map fst o) (color_of item)) eqn:E; [reflexivity|].
      apply fresh_In in E. apply JSObjectFacts.get_own_None_notin in Hl. contradiction. }
    rewrite Hnew, filter_filter. f_equal.
    apply filter_ext. intros k. apply fresh_app.
Qed.

(** X2. The groups of an answer come in the order of [Object.keys]:
    first the colours that are array indices ("7", "10"), in ascending
    numeric order, then the other colours in the order they first appear
    in the request. *)
Theorem group_order {num} {N : Number num} recommended
  (items : list (Item.t num)) coilWidth optimization summary :
run recommended items coilWidth = Some (optimization, summary) ->
let colors := first_seen (map color_of items) in
exists indices,
  map fst optimization = indices ++ filter (fun c => negb (is_index c)) colors /\
  Permutation indices (filter is_index colors) /\
  StronglySorted index_le indices.
Proof.
rewrite run_eq. destruct (group_items items []) as [cg|] eqn:Hg; [|discriminate].
intros [= <- _] colors.
pose proof (group_items_keys _ _ _ Hg) as Hkeys. simpl in Hkeys.
rewrite (filter_ext _ (fun _ => true)), filter_true in Hkeys by reflexivity.
fold colors in Hkeys.
exists (map fst (map snd (JSObject.indexed cg))). split; [|split].
- rewrite map_map. simpl. unfold JSObject.entries, JSObject.named.
  rewrite map_app. f_equal. rewrite <- Hkeys.
  rewrite <- (filter_map_fst (fun c => negb (is_index c))).
  f_equal. apply filter_ext. intros [k v]. unfold is_index. simpl.
  now destruct (JSObject.array_index k).
- rewrite <- Hkeys, <- (filter_map_fst is_index).
  apply Permutation_map. rewrite KeyOrder.indexed_perm.
  rewrite (filter_ext _ (fun e => is_index (fst e))); [reflexivity|].
  intros [k v]. reflexivity.
- pose proof (KeyOrder.indexed_sorted cg) as Hs.
  pose proof (KeyOrder.indexed_index cg) as Hi.
  induction Hs as [|x l Hs IH Hall]; simpl; constructor.
  + apply IH. intros y Hy. apply Hi. now right.
  + rewrite Forall_forall in Hall. apply Forall_forall. intros k Hk.
    apply in_map_iff in Hk. destruct Hk as (e & <- & He).
    apply in_map_iff in He. destruct He as (y & <- & Hy).
    unfold index_le. rewrite (Hi x (or_introl eq_refl)), (Hi y (or_intror Hy)).
    exact (Hall _ Hy).
Qed.

(** ** The two optimisation endpoints *)




(** ** The colour table *)

Lemma no_custom_key :
forall name, ~ In ("CUSTOM", name) (Categories.colors PRODUCT_CATEGORIES).
Proof.
intros name H. simpl in H.
repeat (destruct H as [H | H]; [discriminate|]). exact H.
Qed.

(** X4. Every spelling of a name of the colour table, in whatever case
    of its letters, resolves to the key of that name, and "CUSTOM" is
    returned only for a colour that matches no name of the table. *)
Theorem getColorCode_round_trip (colorName : string) :
(forall code name,
   In (code, name) (Categories.colors PRODUCT_CATEGORIES) ->
   CaseInsensitive.matches name colorName ->
   getColorCode colorName = code) /\
(getColorCode colorName = "CUSTOM" <->
 forall code name,
   In (code, name) (Categories.colors PRODUCT_CATEGORIES) ->
   ~ CaseInsensitive.matches name colorName).
Proof.
unfold getColorCode.
change (JSObject.entries (Categories.colors PRODUCT_CATEGORIES))
  with (Categories.colors PRODUCT_CATEGORIES).
set (table := Categories.colors PRODUCT_CATEGORIES).
destruct (find_code_spec table colorName)
  as [(n & before & after & Ht & Hn & _) | [Hc Hall]].
- assert (Hin : In (find_code table colorName, n) table).
  { rewrite Ht at 2. apply in_elt. }
  split.
  + intros code name Hcn Hm. apply CaseFacts.toLowerCase_matches in Hm.
    assert (E : (code, name) = (find_code table colorName, n)).
    { apply (lower_names_inj _ colors_distinct); [assumption .. |]. simpl. congruence. }
    congruence.
  + split.
    * intros Hc. rewrite Hc in Hin. destruct (no_custom_key _ Hin).
    * intros Hall. exfalso. apply (Hall _ _ Hin).
      now apply CaseFacts.toLowerCase_matches.
- split.
  + intros code name Hcn Hm. apply CaseFacts.toLowerCase_matches in Hm.
    destruct (Hall _ Hcn Hm).
  + split; [|intros _; exact Hc].
    intros _ code name Hcn Hm. apply CaseFacts.toLowerCase_matches in Hm.
    exact (Hall _ Hcn Hm).
Qed.

Lemma getColorCode_round_trip_witness :
getColorCode "burnished SLATE" = "BS".
Proof.
apply (proj1 (getColorCode_round_trip "burnished SLATE") "BS" "Burnished Slate").
- simpl. tauto.
- apply CaseFacts.toLowerCase_matches. reflexivity.
Defined.

(** ** Product identifiers *)

Lemma prefix_app (p s : string) : String.prefix p (p ++ s) = true.
Proof.
induction p as [|c p IH]; simpl; [now destruct s|].
destruct (ascii_dec c c); [assumption | contradiction].
Qed.

(** X5. Whatever the colour and the width, the identifier that
    [selectCoilProduct] returns starts with the identifier of a 29 gauge
    coil of the catalogue, and the inventory filter keeps a product with
    that identifier whatever its category. *)
Theorem coil_product_in_catalogue (color : string) (width : float)
  (category : option string) :
(exists coil,
   In coil (Categories.coils PRODUCT_CATEGORIES) /\
   selectCoilProduct color width = (coil ++ getColorCode color)%string /\
   (coil = "CO2029" \/ coil = "CO4387529")) /\
Inventory.is_metal_roofing
  {| Inventory.StrCategory := category;
     Inventory.StrProductID := Some (selectCoilProduct color width) |} = true.
Proof.
unfold selectCoilProduct. split.
- destruct (strict_eq width (lit 20)).
  + exists "CO2029". simpl. tauto.
  + exists "CO4387529". simpl. tauto.
- unfold Inventory.is_metal_roofing. cbn [Inventory.StrCategory Inventory.StrProductID].
  destruct (existsb _ _); [reflexivity|].
  destruct (strict_eq width (lit 20)); reflexivity.
Qed.

(** ** Rows and coils in exact arithmetic *)

Module CeilingFacts.







End CeilingFacts.







(** ** Prices in exact arithmetic *)



(** ** Numbers that are not numbers *)

Module NaN.

Lemma Prim2SF_inj (x y : float) : Prim2SF x = Prim2SF y -> x = y.
Proof.
intros H. rewrite <- (SF2Prim_Prim2SF x), <- (SF2Prim_Prim2SF y). now rewrite H.
Qed.

Lemma add_l (y : float) : PrimFloat.add nan y = nan.
Proof. apply Prim2SF_inj. rewrite FloatAxioms.add_spec. reflexivity. Qed.

Lemma add_r (x : float) : PrimFloat.add x nan = nan.
Proof.
apply Prim2SF_inj. rewrite FloatAxioms.add_spec. now destruct (Prim2SF x) as [| | |[] ? ?].
Qed.

Lemma sub_l (y : float) : PrimFloat.sub nan y = nan.
Proof. apply Prim2SF_inj. rewrite FloatAxioms.sub_spec. reflexivity. Qed.

Lemma mul_l (y : float) : PrimFloat.mul nan y = nan.
Proof. apply Prim2SF_inj. rewrite FloatAxioms.mul_spec. reflexivity. Qed.

Lemma mul_r (x : float) : PrimFloat.mul x nan = nan.
Proof.
apply Prim2SF_inj. rewrite FloatAxioms.mul_spec. now destruct (Prim2SF x) as [| | |[] ? ?].
Qed.

Lemma div_l (y : float) : PrimFloat.div nan y = nan.
Proof. apply Prim2SF_inj. rewrite FloatAxioms.div_spec. reflexivity. Qed.

Lemma div_r (x : float) : PrimFloat.div x nan = nan.
Proof.
apply Prim2SF_inj. rewrite FloatAxioms.div_spec. now destruct (Prim2SF x) as [| | |[] ? ?].
Qed.

Lemma geb_l (y : float) : Float64.geb nan y = false.
Proof.
unfold Float64.geb. rewrite FloatAxioms.leb_spec. now destruct (Prim2SF y) as [| | |[] ? ?].
Qed.

(** A sum with a NaN in it, or started from NaN, is NaN. *)
Lemma fold_add_nan (l : list float) : fold_left PrimFloat.add l nan = nan.
Proof.
induction l as [|x l IH]; simpl; [reflexivity|]. now rewrite add_l.
Qed.

Lemma fold_add_In (l : list float) : forall a,
In nan l -> fold_left PrimFloat.add l a = nan.
Proof.
induction l as [|x l IH]; intros a; simpl; [tauto|].
intros [-> | H]; [rewrite add_r; apply fold_add_nan | now apply IH].
Qed.

(** The footage of a line with a NaN in it. *)
Lemma pattern_of_nan (coilWidth : float) (item : Item.t float) :
Item.quantity item = nan \/ Item.length item = nan \/ Item.width item = nan ->
Pattern.totalFeet (pattern_of coilWidth item) = nan.
Proof.
unfold pattern_of. cbn [geb div mul Math_floor Math_ceil Float64_number].
intros [Hq | [Hl | Hw]].
- rewrite Hq. destruct (Float64.geb (Item.width item) coilWidth); simpl.
  + apply mul_l.
  + rewrite div_l. apply mul_l.
- rewrite Hl. destruct (Float64.geb (Item.width item) coilWidth); simpl; apply mul_r.
- rewrite Hw, geb_l. simpl. rewrite div_r.
  change (Float64.Math_floor nan) with nan. rewrite div_r. apply mul_l.
Qed.

End NaN.

(** X9. A line whose quantity, length or width is not a number (the
    field is missing, say) does not make the request fail: it is answered
    as any other, and every footage and price of the summary reads NaN. *)
Theorem nan_spreads (body : Body.t float) optimization summary items item :
optimize body = Ok200 optimization summary ->
Body.items body = Some items -> In item items ->
Item.quantity item = nan \/ Item.length item = nan \/ Item.width item = nan ->
Summary.totalLinearFeet summary = "NaN" /\
Summary.scrapFeet summary = "NaN" /\
Summary.totalWithScrap summary = "NaN" /\
Summary.pricing summary =
  {| Summary.materialCost := "NaN"; Summary.laborCost := "NaN";
     Summary.totalCost := "NaN"; Summary.sellPrice := "NaN";
     Summary.margin := "NaN"; Summary.marginPercent := "30%" |}.
Proof.
intros Hok Hitems Hin Hnan.
destruct (optimize_Ok200 _ _ _ Hok) as (items' & Hitems' & _ & Hrun).
rewrite Hitems in Hitems'. injection Hitems' as <-.
set (g := optimize_color true (coilWidth_of body) (color_of item)
            (filter (has_color (color_of item)) items)).
assert (Hg : In (color_of item, g) optimization).
{ apply (run_groups _ _ _ _ _ Hrun). split; [|reflexivity].
  intros E. pose proof (In_own_group _ _ Hin) as H. now rewrite E in H. }
assert (Hbase : Group.baseLinearFeet g = nan).
{ unfold g. rewrite optimize_color_eq. cbn [Group.baseLinearFeet]. unfold sum.
  apply NaN.fold_add_In. rewrite <- (NaN.pattern_of_nan (coilWidth_of body) item Hnan).
  apply in_map, in_map. now apply In_own_group. }
assert (Htotal : Group.totalLinearFeet g = nan).
{ unfold g in *. rewrite optimize_color_eq in *.
  cbn [Group.baseLinearFeet Group.totalLinearFeet] in *. rewrite Hbase. apply NaN.add_l. }
assert (HL : sum_base optimization = nan).
{ apply NaN.fold_add_In. rewrite <- Hbase.
  now apply (in_map (fun e => Group.baseLinearFeet (snd e)) _ (color_of item, g)). }
assert (HT : sum_total optimization = nan).
{ apply NaN.fold_add_In. rewrite <- Htotal.
  now apply (in_map (fun e => Group.totalLinearFeet (snd e)) _ (color_of item, g)). }
rewrite (optimize_summary _ _ _ Hok), HL, HT. repeat split.
Qed.

(** ** Authentication *)

Module AuthFacts.
Import Server.



End AuthFacts.



(** X11. [authenticate] sends one request at most.  It sends none when
    the token it holds is not empty and has not expired; otherwise, with a
    configuration, it asks for a token at [/api/user/Auth/GetToken] of the
    configured base URL with the configured user, password and key.  When
    it throws, the token and the expiry it held are as they were. *)
Theorem authenticate_requests (post : Server.TokenRequest -> Server.Outcome string * Z)
  (w : Server.World) :
let '(result, w', requests) := Server.authenticate post w in
(requests = [] \/
 exists config,
   Server.PARADIGM_CONFIG (Server.state w) = Some config /\
   requests =
     [{| Server.url := (Server.baseURL config ++ "/api/user/Auth/GetToken")%string;
         Server.userName := Server.username config;
         Server.body_password := Server.password config;
         Server.x_api_key := Server.apiKey config |}]) /\
(requests = [] -> forall token, result = inl token ->
   w' = w /\ Server.authToken (Server.state w) = Some token /\ token <> "" /\
   exists expiry,
     Server.tokenExpiry (Server.state w) = Some expiry /\ (Server.now w < expiry)%Z) /\
(forall message, result = inr message ->
   message = "Failed to authenticate with Paradigm" /\
   Server.state w' = Server.state w /\
   exists before, Server.console w' = before ++ [(Server.error, Server.AuthenticationFailed)]).
Proof.
unfold Server.authenticate.
destruct (Server.authToken (Server.state w)) as [tok|] eqn:Ht;
  [destruct (Server.tokenExpiry (Server.state w)) as [e|] eqn:He;
   [destruct (negb (String.eqb tok "") && (Server.now w <? e)%Z) eqn:Hc|]|].
1: { apply andb_true_iff in Hc. destruct Hc as [Hne Hlt].
     apply negb_true_iff, String.eqb_neq in Hne. apply Z.ltb_lt in Hlt.
     split; [now left|]. split; [|discriminate].
     intros _ token [= <-]. repeat split; try assumption. now exists e. }
all: destruct (Server.PARADIGM_CONFIG (Server.state w)) as [config|] eqn:Hcfg;
  [destruct (post _) as [[data|failure] t1]|];
  (split; [first [now left | right; exists config; split; reflexivity]|]);
  (split; [discriminate|]);
  intros message; try discriminate; intros [= <-];
  (split; [reflexivity|]); (split; [reflexivity|]); eexists; reflexivity.
Qed.


(** ** Secrets *)

Lemma or_else_nonempty (a : option string) (b : string) :
b <> "" -> Server.or_else a b <> "".
Proof.
intros Hb. unfold Server.or_else. destruct a as [s|]; [|assumption].
destruct (String.eqb s "") eqn:E; [assumption | now apply String.eqb_neq].
Qed.

Lemma authenticate_configured post w config message w' requests :
Server.PARADIGM_CONFIG (Server.state w) = Some config ->
Server.authenticate post w = (inr message, w', requests) -> requests <> [].
Proof.
intros Hc. unfold Server.authenticate. rewrite Hc.
destruct (Server.authToken (Server.state w)) as [tok|];
  [destruct (Server.tokenExpiry (Server.state w)) as [e|];
   [destruct (negb (String.eqb tok "") && (Server.now w <? e)%Z)|]|];
  try discriminate;
  destruct (post _) as [[data|failure] t1]; try discriminate;
  intros [= _ _ <-]; discriminate.
Qed.

(** X12. [loadSecrets] always returns [true] and leaves a configuration,
    without touching the token.  Outside development the configuration
    has the Paradigm base URL and the user web_admin, and its API key and
    password are defined: the two secrets of the project when both can be
    read, otherwise those of the environment or else the literals of the
    source, never empty.  After it, [authenticate] can only throw once it
    has sent its request. *)
Theorem secrets_loaded (env : Server.Env) (accessSecretVersion : string -> option string)
  (w : Server.World) :
let '(loaded, w1) := Server.loadSecrets env accessSecretVersion w in
let projectId := Server.or_else (Server.GOOGLE_CLOUD_PROJECT env) "procoil-greenfield-prod" in
let secret name := accessSecretVersion (Server.secret_name projectId name) in
loaded = true /\
Server.authToken (Server.state w1) = Server.authToken (Server.state w) /\
Server.tokenExpiry (Server.state w1) = Server.tokenExpiry (Server.state w) /\
exists config,
  Server.PARADIGM_CONFIG (Server.state w1) = Some config /\
  (Server.is_development env = false ->
   Server.baseURL config = "https://greenfieldapi.para-apps.com" /\
   Server.username config = "web_admin" /\
   exists key password,
     Server.apiKey config = Some key /\ Server.password config = Some password /\
     match secret "paradigm-api-key", secret "paradigm-password" with
     | Some k, Some p => key = k /\ password = p
     | _, _ =>
         key = Server.or_else (Server.PARADIGM_API_KEY env) "nVPsQFBteV&GEd7*8n0%RliVjksag8" /\
         password = Server.or_else (Server.PARADIGM_PASSWORD env) "ChangeMe#123!" /\
         key <> "" /\ password <> ""
     end) /\
  forall post message w2 requests,
    Server.authenticate post w1 = (inr message, w2, requests) -> requests <> [].
Proof.
unfold Server.loadSecrets. cbv zeta.
set (projectId := Server.or_else _ "procoil-greenfield-prod").
destruct (Server.is_development env).
- repeat split. eexists. split; [reflexivity|]. split; [discriminate|].
  intros post message w2 requests H.
  eapply authenticate_configured; [|exact H]. reflexivity.
- destruct (accessSecretVersion (Server.secret_name projectId "paradigm-api-key")) as [k|];
    [destruct (accessSecretVersion (Server.secret_name projectId "paradigm-password"))
       as [p|]|];
    repeat split; eexists; (split; [reflexivity|]);
    (split; [|intros post message w2 requests H;
               eapply authenticate_configured; [|exact H]; reflexivity]);
    intros _; (split; [reflexivity|]); (split; [reflexivity|]);
    do 2 eexists; (split; [reflexivity|]); (split; [reflexivity|]);
    repeat split; apply or_else_nonempty; discriminate.
Qed.

(** ** The inventory and its cache *)

Module InventoryFacts.
Import Server.

Lemma authenticate_keeps post w result w' requests :
authenticate post w = (result, w', requests) ->
cache w' = cache w /\
PARADIGM_CONFIG (state w') = PARADIGM_CONFIG (state w) /\
(List.length requests <= 1)%nat.
Proof.
unfold authenticate. cbv zeta.
match goal with
| |- context [match ?c with Some _ => _ | None => _ end = _] => destruct c as [token|]
end.
- intros [= <- <- <-]. simpl. auto.
- destruct (PARADIGM_CONFIG (state w)) as [config|] eqn:Hcfg.
  + destruct (post _) as [[data|failure] t1]; intros [= <- <- <-]; simpl; auto.
  + intros [= <- <- <-]. simpl. auto.
Qed.


End InventoryFacts.


(** X14. The inventory endpoint keeps the cache filtered: if the cache
    holds metal roofing products only, so does every 200 answer and so
    does the cache afterwards.  An answer of 500 leaves the cache as it
    was, and no call sends more than two requests. *)
Theorem inventory_filtered firestore_get post get firestore_set (w : Server.World) :
cache_filtered w ->
let '(response, w', sent) :=
  Server.get_inventory firestore_get post get firestore_set w in
cache_filtered w' /\
(List.length sent <= 2)%nat /\
match response with
| Server.InventoryOk200 products =>
    Forall (fun p => Inventory.is_metal_roofing p = true) products
| Server.InventoryError500 error _ =>
    error = "Failed to fetch inventory" /\ Server.cache w' = Server.cache w
end.
Proof.
intros Hc. unfold Server.get_inventory, Server.inventory_failed.
assert (Hfilter : forall data,
          Forall (fun p => Inventory.is_metal_roofing p = true)
            (filter Inventory.is_metal_roofing data)).
{ intros data. apply Forall_forall. intros p Hp. now apply filter_In in Hp. }
destruct firestore_get as [[[]|failure] t0]; [|simpl; auto].
cbv zeta.
destruct (match Server.cache (Server.resumed t0 w) with
          | Some (data, timestamp) =>
              if (Server.now (Server.resumed t0 w) - 300000 <? timestamp)%Z
              then Some data else None
          | None => None
          end) as [cached|] eqn:Hfresh.
- split; [exact Hc|]. split; [simpl; lia|].
  simpl in Hfresh. unfold cache_filtered in Hc.
  destruct (Server.cache w) as [[d ts]|]; [|discriminate].
  destruct (t0 - 300000 <? ts)%Z; [|discriminate]. now injection Hfresh as <-.
- destruct (Server.authenticate post (Server.resumed t0 w))
    as [[[token|failure] w1] requests] eqn:Hauth;
    destruct (InventoryFacts.authenticate_keeps _ _ _ _ _ Hauth) as (Hk & _ & Hlen);
    simpl in Hk;
    assert (Hc1 : cache_filtered w1) by (unfold cache_filtered in *; now rewrite Hk).
  + destruct (Server.PARADIGM_CONFIG (Server.state w1)) as [config|].
    * set (request := {| Server.inventory_url := _ |}).
      destruct (get request) as [[data|failure'] t2];
        [destruct firestore_set as [[[]|failure'] t3]|];
        (split; [first [apply Hfilter | exact Hc1]|]);
        (split; [rewrite length_app, length_map; simpl; lia|]);
        first [apply Hfilter | split; [reflexivity | exact Hk]].
    * split; [exact Hc1|]. split; [rewrite length_map; lia|].
      split; [reflexivity | exact Hk].
  + split; [exact Hc1|]. split; [rewrite length_map; lia|].
    split; [reflexivity | exact Hk].
Qed.

(** ** The figures of the summary *)

Module DecimalFacts.
Local Open Scope string_scope.

Lemma digit_val_digit (d : Z) :
(0 <= d < 10)%Z -> JSObject.digit_val (Digits.digit d) = Some (Z.to_N d).
Proof.
intros H. assert (E : exists k : nat, (k < 10)%nat /\ d = Z.of_nat k).
{ exists (Z.to_nat d). split; lia. }
destruct E as (k & Hk & ->).
do 10 (destruct k as [|k]; [reflexivity|]). lia.
Qed.

Lemma digit_not_point (c : ascii) d :
JSObject.digit_val c = Some d -> Ascii.eqb c "." = false.
Proof.
intros H. destruct (Ascii.eqb c ".") eqn:E; [|reflexivity].
apply Ascii.eqb_eq in E. subst. discriminate.
Qed.

Lemma int_app (s t : string) : forall a,
Decimal.int (s ++ t) a =
match Decimal.int s a with
| Some n => Decimal.int t n
| None => None
end.
Proof.
induction s as [|c s IH]; intros a; simpl; [reflexivity|].
destruct (JSObject.digit_val c); [apply IH | reflexivity].
Qed.

Lemma int_zeros (k : nat) : Decimal.int (Digits.zeros k) 0 = Some 0%Z.
Proof. induction k; simpl; auto. Qed.

Lemma append_assoc (s t u : string) : (s ++ t) ++ u = s ++ t ++ u.
Proof. induction s as [|c s IH]; simpl; [reflexivity | now rewrite IH]. Qed.

Lemma append_nil_r (s : string) : s ++ "" = s.
Proof. induction s as [|c s IH]; simpl; [reflexivity | now rewrite IH]. Qed.

Lemma length_append (s t : string) :
String.length (s ++ t) = (String.length s + String.length t)%nat.
Proof. induction s as [|c s IH]; simpl; [reflexivity | now rewrite IH]. Qed.

Lemma of_Z_aux_app (fuel : nat) : forall n acc,
Digits.of_Z_aux fuel n acc = Digits.of_Z_aux fuel n "" ++ acc.
Proof.
induction fuel as [|fuel IH]; intros n acc; simpl; [reflexivity|].
destruct (n <? 10)%Z; [reflexivity|].
rewrite (IH _ (String _ acc)), (IH _ (String _ "")), append_assoc. reflexivity.
Qed.

Lemma int_of_Z_aux (fuel : nat) : forall n,
(0 <= n < 10 ^ Z.of_nat fuel)%Z ->
Decimal.int (Digits.of_Z_aux fuel n "") 0 = Some n.
Proof.
induction fuel as [|fuel IH]; intros n Hn.
- simpl in *. f_equal. lia.
- cbn [Digits.of_Z_aux].
  assert (Hd : (0 <= n mod 10 < 10)%Z) by (apply Z.mod_pos_bound; lia).
  destruct (Z.ltb_spec n 10).
  + simpl. rewrite Z.mod_small by lia. rewrite digit_val_digit by lia.
    f_equal. lia.
  + rewrite of_Z_aux_app, int_app, IH.
    * simpl. rewrite digit_val_digit by assumption. f_equal.
      rewrite Z2N.id by lia. pose proof (Z.div_mod n 10). lia.
    * rewrite Nat2Z.inj_succ, Z.pow_succ_r in Hn by lia.
      split; [apply Z.div_pos; lia | apply Z.div_lt_upper_bound; lia].
Qed.

Lemma int_of_Z (n : Z) : (0 <= n)%Z -> Decimal.int (Digits.of_Z n) 0 = Some n.
Proof.
intros Hn. apply int_of_Z_aux. split; [assumption|].
destruct (Z.eq_dec n 0) as [->|Hne]; [reflexivity|].
rewrite Nat2Z.inj_succ, Z2Nat.id by apply Z.log2_nonneg.
apply Z.lt_le_trans with (m := (2 ^ Z.succ (Z.log2 n))%Z).
- apply Z.log2_spec. lia.
- apply Z.pow_le_mono_l. split; [lia|lia].
Qed.


Lemma pow10_succ (k : nat) : Decimal.pow10 (S k) = (10 * Decimal.pow10 k)%positive.
Proof.
unfold Decimal.pow10. rewrite Nat2Z.inj_succ, Z.pow_succ_r by lia.
rewrite Z2Pos.inj_mul by (try apply Z.pow_pos_nonneg; lia). reflexivity.
Qed.

Lemma digits_after (s : string) : forall a scale n,
Decimal.int s a = Some n ->
Decimal.digits s a scale true = Some (Qmake n (scale * Decimal.pow10 (String.length s))).
Proof.
induction s as [|c s IH]; intros a scale n; simpl.
- intros [= ->]. now rewrite Pos.mul_1_r.
- destruct (JSObject.digit_val c) as [d|] eqn:Hd; [|discriminate].
  rewrite (digit_not_point _ _ Hd). intros H.
  rewrite (IH _ _ _ H), pow10_succ. do 2 f_equal. lia.
Qed.

Lemma digits_before (s : string) : forall a n rest scale,
Decimal.int s a = Some n ->
Decimal.digits (s ++ rest) a scale false = Decimal.digits rest n scale false.
Proof.
induction s as [|c s IH]; intros a n rest scale; simpl.
- now intros [= ->].
- destruct (JSObject.digit_val c) as [d|] eqn:Hd; [|discriminate].
  rewrite (digit_not_point _ _ Hd). apply IH.
Qed.

Lemma value_digits (s rest : string) a n :
Decimal.int s a = Some n -> s <> "" ->
Decimal.value (s ++ rest) = Decimal.digits (s ++ rest) 0 1 false.
Proof.
destruct s as [|c s]; [contradiction|]. simpl.
destruct (JSObject.digit_val c) as [d|] eqn:Hd; [|discriminate].
intros _ _. destruct (Ascii.eqb c "-") eqn:E; [|reflexivity].
apply Ascii.eqb_eq in E. subst. discriminate.
Qed.

Lemma take_drop (k : nat) : forall s, Digits.take k s ++ Digits.drop k s = s.
Proof.
induction k as [|k IH]; intros [|c s]; simpl; try reflexivity. now rewrite IH.
Qed.

Lemma length_drop (k : nat) : forall s,
String.length (Digits.drop k s) = (String.length s - k)%nat.
Proof.
induction k as [|k IH]; intros [|c s]; simpl; try reflexivity; auto.
Qed.

Lemma length_take (k : nat) : forall s,
(k <= String.length s)%nat -> String.length (Digits.take k s) = k.
Proof.
induction k as [|k IH]; intros [|c s]; simpl; try reflexivity; try lia.
intros H. rewrite IH; lia.
Qed.

Lemma length_zeros (k : nat) : String.length (Digits.zeros k) = k.
Proof. induction k; simpl; auto. Qed.

Lemma of_Z_nonempty (n : Z) : (1 <= String.length (Digits.of_Z n))%nat.
Proof.
unfold Digits.of_Z. cbn [Digits.of_Z_aux].
destruct (n <? 10)%Z; [simpl; lia|].
rewrite of_Z_aux_app, length_append. simpl. lia.
Qed.

(** The numeral of [n / 10^f] reads as that number. *)
Lemma fixed_string_digits (f : nat) (n : Z) :
(0 <= n)%Z ->
Decimal.digits (Float64.fixed_string f n) 0 1 false = Some (Qmake n (Decimal.pow10 f)) /\
Decimal.value (Float64.fixed_string f n)
= Decimal.digits (Float64.fixed_string f n) 0 1 false.
Proof.
intros Hn. unfold Float64.fixed_string.
pose proof (int_of_Z n Hn) as Hint. pose proof (of_Z_nonempty n) as Hlen.
destruct f as [|f].
- rewrite <- (append_nil_r (Digits.of_Z n)).
  rewrite (value_digits _ _ _ _ Hint), (digits_before _ _ _ _ _ Hint).
  + split; reflexivity.
  + intros E. rewrite E in Hlen. simpl in Hlen. lia.
- set (m := Digits.of_Z n) in *.
  set (m' := if (String.length m <=? S f)%nat then _ else m).
  assert (Hint' : Decimal.int m' 0 = Some n).
  { unfold m'. destruct (String.length m <=? S f)%nat; [|assumption].
    now rewrite int_app, int_zeros. }
  assert (Hlen' : (S f < String.length m')%nat).
  { unfold m'. destruct (Nat.leb_spec (String.length m) (S f)); [|assumption].
    rewrite length_append, length_zeros. lia. }
  set (a := (String.length m' - S f)%nat).
  rewrite <- (take_drop a m') in Hint'. rewrite int_app in Hint'.
  destruct (Decimal.int (Digits.take a m') 0) as [n1|] eqn:H1; [|discriminate].
  rewrite (value_digits _ _ _ _ H1), (digits_before _ _ _ _ _ H1).
  + split; [|reflexivity].
    simpl. rewrite (digits_after _ _ _ _ Hint'), length_drop.
    do 2 f_equal. unfold a. rewrite Pos.mul_1_l. f_equal. lia.
  + intros E. apply (f_equal String.length) in E. rewrite length_take in E; simpl in E.
    all: unfold a in *; lia.
Qed.

Lemma round_half_up_bounds (a d : Z) :
(0 < d)%Z ->
(2 * a - d < 2 * d * Float64.round_half_up a d <= 2 * a + d)%Z.
Proof.
intros Hd. unfold Float64.round_half_up.
pose proof (Z.div_mod (2 * a + d) (2 * d) ltac:(lia)) as E.
pose proof (Z.mod_pos_bound (2 * a + d) (2 * d) ltac:(lia)) as B. lia.
Qed.

End DecimalFacts.

Lemma toFixed_accurate (f : nat) (x : float) s m e :
Prim2SF x = S754_finite s m e ->
PrimFloat.leb 1e21 (PrimFloat.abs x) = false ->
within (Qmake 1 (2 * Decimal.pow10 f)) (Float64.toFixed f x) x.
Proof.
intros HSF Hbig. unfold within, Float64.toFixed, exact_value. rewrite HSF, Hbig.
set (n := if (0 <=? e)%Z then _ else _).
assert (Hpow : (0 < 10 ^ Z.of_nat f)%Z) by (apply Z.pow_pos_nonneg; lia).
assert (Hp10 : Zpos (Decimal.pow10 f) = (10 ^ Z.of_nat f)%Z).
{ unfold Decimal.pow10. now rewrite Z2Pos.id. }
assert (Hn : (0 <= n)%Z).
{ unfold n. destruct (0 <=? e)%Z eqn:He.
  - apply Z.leb_le in He. apply Z.mul_nonneg_nonneg; [lia|]. now apply Z.pow_nonneg.
  - apply Z.leb_gt in He.
    pose proof (DecimalFacts.round_half_up_bounds (Zpos m * 10 ^ Z.of_nat f) (2 ^ (- e))
                  ltac:(apply Z.pow_pos_nonneg; lia)) as B.
    assert (0 < 2 ^ (- e))%Z by (apply Z.pow_pos_nonneg; lia). nia. }
destruct (DecimalFacts.fixed_string_digits f n Hn) as [Hd Hv].
exists (if s then - Qmake n (Decimal.pow10 f) else Qmake n (Decimal.pow10 f)).
eexists. split; [|split; [reflexivity|]].
- destruct s; simpl.
  + now rewrite Hd.
  + now rewrite Hv, Hd.
- apply Qabs_Qle_condition.
  assert (Hcore :
    - (1 # 2 * Decimal.pow10 f)
    <= Qmake n (Decimal.pow10 f)
       - (if (0 <=? e)%Z then inject_Z (Zpos m * 2 ^ e)
          else Qmake (Zpos m) (2 ^ Z.to_pos (- e)))
    <= 1 # 2 * Decimal.pow10 f).
  { unfold n. destruct (0 <=? e)%Z eqn:He.
    - unfold Qle, Qminus, Qplus, Qopp, inject_Z. cbn [Qnum Qden].
      rewrite !Pos2Z.inj_mul, Hp10. split; nia.
    - apply Z.leb_gt in He.
      assert (HD : (0 < 2 ^ (- e))%Z) by (apply Z.pow_pos_nonneg; lia).
      assert (HD' : Zpos (2 ^ Z.to_pos (- e)) = (2 ^ (- e))%Z).
      { rewrite Pos2Z.inj_pow. f_equal. rewrite Z2Pos.id; lia. }
      pose proof (DecimalFacts.round_half_up_bounds (Zpos m * 10 ^ Z.of_nat f) (2 ^ (- e)) HD) as B.
      unfold Qle, Qminus, Qplus, Qopp. cbn [Qnum Qden].
      rewrite !Pos2Z.inj_mul, Hp10, HD'. split; nia. }
  destruct s; [|exact Hcore].
  destruct Hcore as [H1 H2]. split.
  + setoid_replace (- Qmake n (Decimal.pow10 f) - - (if (0 <=? e)%Z then inject_Z (Zpos m * 2 ^ e) else Qmake (Zpos m) (2 ^ Z.to_pos (- e))))
      with (- (Qmake n (Decimal.pow10 f) - (if (0 <=? e)%Z then inject_Z (Zpos m * 2 ^ e) else Qmake (Zpos m) (2 ^ Z.to_pos (- e))))) by ring.
    now apply Qopp_le_compat.
  + setoid_replace (- Qmake n (Decimal.pow10 f) - - (if (0 <=? e)%Z then inject_Z (Zpos m * 2 ^ e) else Qmake (Zpos m) (2 ^ Z.to_pos (- e))))
      with (- (Qmake n (Decimal.pow10 f) - (if (0 <=? e)%Z then inject_Z (Zpos m * 2 ^ e) else Qmake (Zpos m) (2 ^ Z.to_pos (- e))))) by ring.
    rewrite <- (Qopp_involutive (1 # 2 * Decimal.pow10 f)). now apply Qopp_le_compat.
Qed.

Lemma toFixed_within (f : nat) (x : float) :
printable x -> within (Qmake 1 (2 * Decimal.pow10 f)) (Float64.toFixed f x) x.
Proof.
unfold printable. destruct (Prim2SF x) as [sz| | |s m e] eqn:HSF; try contradiction.
- intros _. unfold within, Float64.toFixed, exact_value. rewrite HSF.
  destruct (DecimalFacts.fixed_string_digits f 0 ltac:(lia)) as [Hd Hv].
  exists (Qmake 0 (Decimal.pow10 f)), 0. split; [now rewrite Hv, Hd|].
  split; [reflexivity|]. apply Qabs_Qle_condition. split; discriminate.
- intros Hbig. exact (toFixed_accurate f x s m e HSF Hbig).
Qed.

(** X15. The footage and the prices of the summary are accurate to half
    a hundredth: whenever the number that a figure reports is finite and
    below 10^21 in magnitude, the figure is a decimal numeral that differs
    from it by 0.005 at most.  This is so of every number [toFixed]
    renders with two decimals. *)
Theorem figures_accurate (body : Body.t float) optimization summary :
optimize body = Ok200 optimization summary ->
(forall x, printable x -> within (1 # 200) (toFixed 2 x) x) /\
(printable (sum_base optimization) ->
 within (1 # 200) (Summary.totalLinearFeet summary) (sum_base optimization)) /\
(printable (sum_total optimization) ->
 within (1 # 200) (Summary.totalWithScrap summary) (sum_total optimization)) /\
(printable (sub (sum_total optimization) (sum_base optimization)) ->
 within (1 # 200) (Summary.scrapFeet summary)
   (sub (sum_total optimization) (sum_base optimization))).
Proof.
intros Hok. rewrite (optimize_summary _ _ _ Hok).
repeat split; intros; now apply (toFixed_within 2).
Qed.

Lemma figures_accurate_witness :
exists optimization summary,
  optimize Example.eighth = Ok200 optimization summary /\
  Summary.totalLinearFeet summary = "10.13" /\
  within (1 # 200) (Summary.totalLinearFeet summary) (sum_base optimization).
Proof.
do 2 eexists. split; [vm_compute; reflexivity|]. split; [reflexivity|].
refine (proj1 (proj2 (figures_accurate Example.eighth _ _
                        ltac:(vm_compute; reflexivity))) _).
vm_compute. reflexivity.
Defined.

(** ** Worked examples *)

Lemma items_conserved_witness :
exists optimization summary,
  run true Example.numbered 43.875%float = Some (optimization, summary) /\
  Permutation (flat_map (fun e => Group.items (snd e)) optimization) Example.numbered.
Proof.
do 2 eexists. split; [vm_compute; reflexivity|].
exact (proj1 (items_conserved true Example.numbered 43.875%float _ _
                ltac:(vm_compute; reflexivity))).
Defined.

Lemma group_order_witness :
exists optimization summary,
  run true Example.numbered 43.875%float = Some (optimization, summary) /\
  map fst optimization = ["2"; "7"; "10"; "b"; "07"] /\
  exists indices,
    map fst optimization
    = indices ++ filter (fun c => negb (is_index c))
                   (first_seen (map color_of Example.numbered)) /\
    Permutation indices (filter is_index (first_seen (map color_of Example.numbered))) /\
    StronglySorted index_le indices.
Proof.
do 2 eexists. split; [vm_compute; reflexivity|]. split; [reflexivity|].
exact (group_order true Example.numbered 43.875%float _ _ ltac:(vm_compute; reflexivity)).
Defined.

Lemma nan_spreads_witness :
exists optimization summary,
  optimize Example.missing = Ok200 optimization summary /\
  Summary.totalLinearFeet summary = "NaN".
Proof.
do 2 eexists. split; [vm_compute; reflexivity|].
refine (proj1 (nan_spreads Example.missing _ _ _
                 (Scenario.line "RIDGE-AG" "Ash Gray" nan 10 14)
                 ltac:(vm_compute; reflexivity) eq_refl _ _)).
- simpl. tauto.
- left. reflexivity.
Defined.


Lemma inventory_filtered_witness :
cache_filtered
  (snd (fst (Server.get_inventory (ServerExample.answers 1700000000100)
               ServerExample.grants ServerExample.lists
               (ServerExample.answers 1700000001000) ServerExample.configured))).
Proof.
exact (proj1 (inventory_filtered (ServerExample.answers 1700000000100)
                ServerExample.grants ServerExample.lists
                (ServerExample.answers 1700000001000) ServerExample.configured I)).
Defined.
